(** * Grid-world MDP (mdp.py): a shallow embedding and its properties

    The Python module defines a passive [MDP] container and the
    [GridWorldMDP] specialisation: a row-major bijection between states and
    grid coordinates, a deterministic transition function over nine
    actions, a dense float64 reward table (a numpy array) filled at
    construction, and goal reconfiguration by in-place writes to the ABSORB
    column.

    Modelling choices.
    - Python integers are [Z]; [//] and [%] are [Z.div] and [Z.modulo]
      (both floor, the remainder takes the sign of the divisor).
    - numpy float64 cells are primitive binary64 floats; the code only
      stores and never computes with them.
    - A numpy array is a shape and a flat row-major buffer. Arrays live in a
      store and are reached through references, so that aliasing between
      instances is visible.
    - Exceptions are values of [exn]; a computation returns a [result]
      together with the store it leaves behind, also when it raises. *)

From Stdlib Require Import ZArith Lia PrimFloat.
From stdpp Require Import base option list gmap.

Local Open Scope Z_scope.

(** ** Exceptions and the two monads *)

Inductive exn : Set :=
  | AssertionError
  | IndexError
  | TypeError
  | BaseException
  | DanglingReference.

Inductive result (T : Type) : Type :=
  | Ok (v : T)
  | Raise (e : exn).
Arguments Ok {T} v.
Arguments Raise {T} e.

Definition bindR {T U} (x : result T) (k : T -> result U) : result U :=
  match x with
  | Ok v => k v
  | Raise e => Raise e
  end.

Notation "'let*' p ':=' e 'in' k" :=
  (bindR e (fun p => k))
  (at level 10, p pattern, e at level 100, k at level 200).

(** Python's [assert]. *)
Definition assert_ (b : bool) : result unit :=
  if b then Ok tt else Raise AssertionError.

(** ** numpy arrays *)

Record ndarray : Set := mk_ndarray {
  shape : list Z;
  data : list float
}.

Definition numel (sh : list Z) : Z := foldr Z.mul 1 sh.

Definition wf_ndarray (arr : ndarray) : Prop :=
  Forall (fun d => 0 <= d) (shape arr) /\
  Z.of_nat (length (data arr)) = numel (shape arr).

(** [np.full(shape, v)]; [np.zeros] followed by [fill] gives the same. *)
Definition np_full (sh : list Z) (v : float) : ndarray :=
  {| shape := sh; data := replicate (Z.to_nat (numel sh)) v |}.

(** An index along an axis of length [n]: negative indices count from the
    end, anything outside [-n, n) is an [IndexError]. *)
Definition norm_index (n i : Z) : result Z :=
  if (0 <=? i) && (i <? n) then Ok i
  else if (- n <=? i) && (i <? 0) then Ok (i + n)
  else Raise IndexError.

Definition read_cell (arr : ndarray) (k : Z) : result float :=
  match data arr !! Z.to_nat k with
  | Some v => Ok v
  | None => Raise IndexError
  end.

Definition write_cell (arr : ndarray) (k : Z) (v : float) : ndarray :=
  {| shape := shape arr; data := <[Z.to_nat k := v]> (data arr) |}.

(** [arr[s, a]] *)
Definition getitem2 (arr : ndarray) (s a : Z) : result float :=
  match shape arr with
  | [n; m] =>
      let* i := norm_index n s in
      let* j := norm_index m a in
      read_cell arr (i * m + j)
  | _ => Raise IndexError
  end.

(** [arr[s, a] = v] *)
Definition setitem2 (arr : ndarray) (s a : Z) (v : float) : result ndarray :=
  match shape arr with
  | [n; m] =>
      let* i := norm_index n s in
      let* j := norm_index m a in
      Ok (write_cell arr (i * m + j) v)
  | _ => Raise IndexError
  end.

(** [arr[i] = v] on a one-dimensional array *)
Definition setitem1 (arr : ndarray) (i : Z) (v : float) : result ndarray :=
  match shape arr with
  | [n] =>
      let* k := norm_index n i in
      Ok (write_cell arr k v)
  | _ => Raise IndexError
  end.

(** [arr[:, a].fill(v)]: the column view is a strided window on the same
    buffer, so the fill writes cell [i * m + a] of every row [i]. *)
Definition fill_column (arr : ndarray) (a : Z) (v : float) : result ndarray :=
  match shape arr with
  | [n; m] =>
      let* j := norm_index m a in
      Ok (foldl (fun acc i => write_cell acc (i * m + j) v) arr (seqZ 0 n))
  | _ => Raise IndexError
  end.

(** ** The store of arrays *)

Abbreviation loc := nat (only parsing).
Abbreviation store := (list ndarray) (only parsing).

Definition M (T : Type) : Type := store -> result T * store.

Definition ret {T} (v : T) : M T := fun h => (Ok v, h).

Definition bindM {T U} (x : M T) (k : T -> M U) : M U :=
  fun h =>
    match x h with
    | (Ok v, h') => k v h'
    | (Raise e, h') => (Raise e, h')
    end.

Declare Scope M_scope.
Delimit Scope M_scope with M.
Notation "x <- e ;; k" := (bindM e (fun x => k))
  (at level 100, e at next level, k at level 200, right associativity)
  : M_scope.
Notation "e ;; k" := (bindM e (fun _ => k))
  (at level 100, k at level 200, right associativity) : M_scope.

Definition lift {T} (x : result T) : M T := fun h => (x, h).

(** A fresh array gets the next free reference. *)
Definition alloc (arr : ndarray) : M loc :=
  fun h => (Ok (length h), h ++ [arr]).

Definition load (l : loc) : M ndarray :=
  fun h =>
    match h !! l with
    | Some arr => (Ok arr, h)
    | None => (Raise DanglingReference, h)
    end.

(** In-place update of the array behind [l]; a failing update leaves the
    store as it was. *)
Definition modify (l : loc) (f : ndarray -> result ndarray) : M unit :=
  fun h =>
    match h !! l with
    | Some arr =>
        match f arr with
        | Ok arr' => (Ok tt, <[l := arr']> h)
        | Raise e => (Raise e, h)
        end
    | None => (Raise DanglingReference, h)
    end.

(** [for x in xs: body(x)] *)
Fixpoint for_ {T} (xs : list T) (body : T -> M unit) : M unit :=
  match xs with
  | [] => ret tt
  | x :: xs' => bindM (body x) (fun _ => for_ xs' body)
  end.

(** [range(n)] *)
Definition range (n : Z) : list Z := seqZ 0 n.

(** Array primitives acting through a reference. *)
Definition np_full_new (sh : list Z) (v : float) : M loc :=
  alloc (np_full sh v).

Definition np_zeros (sh : list Z) : M loc :=
  alloc (np_full sh zero).

(** [arr.fill(v)]: every cell of the buffer becomes [v]. *)
Definition fill (arr : ndarray) (v : float) : ndarray :=
  {| shape := shape arr; data := replicate (length (data arr)) v |}.

Definition np_fill (l : loc) (v : float) : M unit :=
  modify l (fun arr => Ok (fill arr v)).

Definition np_setitem2 (l : loc) (s a : Z) (v : float) : M unit :=
  modify l (fun arr => setitem2 arr s a v).

Definition np_setitem1 (l : loc) (i : Z) (v : float) : M unit :=
  modify l (fun arr => setitem1 arr i v).

Definition np_fill_column (l : loc) (a : Z) (v : float) : M unit :=
  modify l (fun arr => fill_column arr a v).

Definition np_getitem2 (l : loc) (s a : Z) : M float :=
  fun h =>
    match h !! l with
    | Some arr => (getitem2 arr s a, h)
    | None => (Raise DanglingReference, h)
    end.

(** [np.copy(arr)]: a new array with the same shape and contents. *)
Definition np_copy (l : loc) : M loc :=
  bindM (load l) (fun arr => alloc arr).

(** ** Python values, as far as the constructors' checks tell them apart *)

Inductive pyval : Type :=
  | PyInt (z : Z)
  | PyBool (b : bool)
  | PyFloat (f : float)
  | PyNone
  | PyFun (f : Z -> Z -> result Z).

(** [isinstance(v, int)]; [bool] is a subclass of [int]. *)
Definition isinstance_int (v : pyval) : bool :=
  match v with
  | PyInt _ | PyBool _ => true
  | _ => false
  end.

Definition callable (v : pyval) : bool :=
  match v with
  | PyFun _ => true
  | _ => false
  end.

(** [d == v] for an integer [d] of a shape tuple and an [int] instance
    [v]; [True == 1] and [False == 0]. *)
Definition int_eq (d : Z) (v : pyval) : bool :=
  match v with
  | PyInt z => d =? z
  | PyBool b => d =? (if b then 1 else 0)
  | _ => false
  end.

(** [shape == (S, A)], equality of tuples. *)
Definition shape_eq (sh : list Z) (S A : pyval) : bool :=
  match sh with
  | [n; m] => int_eq n S && int_eq m A
  | _ => false
  end.

(** ** class MDP *)

Record MDP : Type := mk_MDP {
  mdp_S : pyval;
  mdp_A : pyval;
  mdp_rewards : loc;
  mdp_transition : pyval
}.

Definition MDP_init (S A : pyval) (rewards : loc) (transition : pyval)
  : M MDP :=
  (lift (assert_ (isinstance_int S)) ;;
   lift (assert_ (isinstance_int A)) ;;
   arr <- load rewards ;;
   lift (assert_ (shape_eq (shape arr) S A)) ;;
   lift (assert_ (callable transition)) ;;
   ret {| mdp_S := S; mdp_A := A; mdp_rewards := rewards;
          mdp_transition := transition |})%M.

(** ** class GridWorldMDP *)

Inductive Actions : Set :=
  | UP | DOWN | LEFT | RIGHT
  | UP_LEFT | UP_RIGHT | DOWN_LEFT | DOWN_RIGHT
  | ABSORB.

#[global] Instance Actions_eq_dec : EqDecision Actions.
Proof. solve_decision. Defined.

(** The [IntEnum] value of an action. *)
Definition value (a : Actions) : Z :=
  match a with
  | UP => 0 | DOWN => 1 | LEFT => 2 | RIGHT => 3
  | UP_LEFT => 4 | UP_RIGHT => 5 | DOWN_LEFT => 6 | DOWN_RIGHT => 7
  | ABSORB => 8
  end.

Definition all_Actions : list Actions :=
  [UP; DOWN; LEFT; RIGHT; UP_LEFT; UP_RIGHT; DOWN_LEFT; DOWN_RIGHT; ABSORB].

(** [len(self.Actions)] *)
Definition len_Actions : Z := Z.of_nat (length all_Actions).

(** An instance. [S], [A] and [rewards] are the attributes set by
    [MDP.__init__]; [self.transition] is the bound method
    [self._transition] and is given below as [transition]. *)
Record GridWorldMDP : Set := mk_GridWorldMDP {
  rows : Z;
  cols : Z;
  num_S : Z;
  num_A : Z;
  rewards : loc;
  state_rewards : loc
}.

Definition coor_to_state (self : GridWorldMDP) (r c : Z) : result Z :=
  let* _ := assert_ ((0 <=? r) && (r <? rows self)) in
  let* _ := assert_ ((0 <=? c) && (c <? cols self)) in
  Ok (r * cols self + c).

Definition state_to_coor (self : GridWorldMDP) (s : Z) : result (Z * Z) :=
  let* _ := assert_ (s <? rows self * cols self) in
  Ok (s / cols self, s mod cols self).

(** What [_transition] returns: the pair [(s_prime, illegal)] when
    [alert_illegal] is set, the bare state otherwise. *)
Inductive transition_ret : Set :=
  | WithFlag (s_prime : Z) (illegal : bool)
  | StateOnly (s_prime : Z).

Definition _transition (self : GridWorldMDP) (s a : Z) (alert_illegal : bool)
  : result transition_ret :=
  let* (r, c) := state_to_coor self s in
  let* _ := assert_ ((a >=? 0) && (a <? len_Actions)) in
  let* (r_prime, c_prime) :=
    if a =? value UP then Ok (r - 1, c)
    else if a =? value DOWN then Ok (r + 1, c)
    else if a =? value LEFT then Ok (r, c - 1)
    else if a =? value RIGHT then Ok (r, c + 1)
    else if a =? value UP_LEFT then Ok (r - 1, c - 1)
    else if a =? value UP_RIGHT then Ok (r - 1, c + 1)
    else if a =? value DOWN_LEFT then Ok (r + 1, c - 1)
    else if a =? value DOWN_RIGHT then Ok (r + 1, c + 1)
    else if a =? value ABSORB then Ok (r, c)
    else Raise BaseException in
  let '(r_prime, c_prime, illegal) :=
    if (r_prime <? 0) || (r_prime >=? rows self)
       || (c_prime <? 0) || (c_prime >=? cols self)
    then (r, c, true)
    else (r_prime, c_prime, false) in
  let* s_prime := coor_to_state self r_prime c_prime in
  Ok (if alert_illegal then WithFlag s_prime illegal else StateOnly s_prime).

(** [self.transition(s, a)], the bound method kept by [MDP.__init__]. *)
Definition transition (self : GridWorldMDP) (s a : Z) : result Z :=
  let* out := _transition self s a false in
  match out with
  | StateOnly s_prime => Ok s_prime
  | WithFlag _ _ => Raise TypeError
  end.

Definition set_goal (self : GridWorldMDP) (goal_state : option Z) : M unit :=
  (np_fill_column (rewards self) (value ABSORB) neg_infinity ;;
   match goal_state with
   | Some g => np_setitem2 (rewards self) g (value ABSORB) zero
   | None => ret tt
   end)%M.

Definition set_all_goals (self : GridWorldMDP) : M unit :=
  np_fill_column (rewards self) (value ABSORB) zero.

(** The instance with only [rows] and [cols] assigned. *)
Definition bare (rows cols : Z) : GridWorldMDP :=
  {| rows := rows; cols := cols; num_S := 0; num_A := 0;
     rewards := 0%nat; state_rewards := 0%nat |}.

(** The body of the double loop of [__init__] at [(s, a)]. *)
Definition fill_entry (self : GridWorldMDP) (rewards : loc)
    (reward_dict : gmap (Z * Z) float) (s a : Z) : M unit :=
  (out <- lift (_transition self s a true) ;;
   match out with
   | WithFlag s_prime illegal =>
       coor <- lift (state_to_coor self s_prime) ;;
       if negb illegal then
         match reward_dict !! coor with
         | Some v => np_setitem2 rewards s a v
         | None => ret tt
         end
       else np_setitem2 rewards s a neg_infinity
   | StateOnly _ => lift (Raise TypeError)
   end)%M.

(** The body of the loop over [reward_dict.items()]. The keys of a
    dictionary are distinct and in-grid keys encode distinct states, so the
    order of the items does not show in the result. *)
Definition fill_state_reward (self : GridWorldMDP) (state_rewards : loc)
    (item : Z * Z * float) : M unit :=
  let '((r, c), reward) := item in
  (i <- lift (coor_to_state self r c) ;;
   np_setitem1 state_rewards i reward)%M.

(** [GridWorldMDP.__init__]. [rows] and [cols] are integers, so the two
    [isinstance] assertions hold. The instance is handed to its own methods
    with only [rows] and [cols] assigned; the other attributes are written
    once [MDP.__init__] has run. [default_reward] and the values of
    [reward_dict] are floats and the keys of [reward_dict] are pairs of
    integers. The reward table is float64 whatever [default_reward] is;
    [state_rewards] takes its dtype from [default_reward], so it is the
    float64 array modelled here for a float [default_reward] only (an
    integer one, such as the declared default 0, gives an int64 array). *)
Definition GridWorldMDP_init (rows cols : Z)
    (reward_dict : gmap (Z * Z) float) (goal_state : option Z)
    (default_reward : float) : M GridWorldMDP :=
  (lift (assert_ (rows >? 0)) ;;
   lift (assert_ (cols >? 0)) ;;
   let self := bare rows cols in
   let S := rows * cols in
   let A := len_Actions in
   rewards <- np_zeros [S; A] ;;
   np_fill rewards default_reward ;;
   for_ (range S) (fun s =>
     for_ (range A) (fun a => fill_entry self rewards reward_dict s a)) ;;
   base <- MDP_init (PyInt S) (PyInt A) rewards (PyFun (transition self)) ;;
   state_rewards <- np_full_new [S] default_reward ;;
   let self := {| rows := rows; cols := cols; num_S := S; num_A := A;
                  rewards := mdp_rewards base;
                  state_rewards := state_rewards |} in
   for_ (map_to_list reward_dict) (fill_state_reward self state_rewards) ;;
   set_goal self goal_state ;;
   ret self)%M.

Definition copy (self : GridWorldMDP) : M GridWorldMDP :=
  (cp <- GridWorldMDP_init (rows self) (cols self) ∅ None zero ;;
   fresh <- np_copy (rewards self) ;;
   ret {| rows := rows cp; cols := cols cp; num_S := num_S cp;
          num_A := num_A cp; rewards := fresh;
          state_rewards := state_rewards cp |})%M.

(** ** Vocabulary of the specification *)

(** The fixed row/column delta of each action. *)
Definition delta (act : Actions) : Z * Z :=
  match act with
  | UP => (-1, 0)
  | DOWN => (1, 0)
  | LEFT => (0, -1)
  | RIGHT => (0, 1)
  | UP_LEFT => (-1, -1)
  | UP_RIGHT => (-1, 1)
  | DOWN_LEFT => (1, -1)
  | DOWN_RIGHT => (1, 1)
  | ABSORB => (0, 0)
  end.

(** Membership of [[0,rows) x [0,cols)]. *)
Definition in_grid (rows cols r c : Z) : bool :=
  (0 <=? r) && (r <? rows) && (0 <=? c) && (c <? cols).

(** The coordinate of [s] shifted by the delta of [act]. *)
Definition shifted (cols s : Z) (act : Actions) : Z * Z :=
  (s / cols + fst (delta act), s mod cols + snd (delta act)).

(** The state whose ABSORB entry [set_goal] zeroes: numpy counts a negative
    index from the end of the axis. *)
Definition goal_index (S : Z) (goal_state : option Z) : option Z :=
  match goal_state with
  | Some g => Some (if g <? 0 then g + S else g)
  | None => None
  end.

(** The reward-table entry after construction, by the three precedence
    rules; [goal] is the state at which ABSORB is free. *)
Definition table_entry (rows cols : Z) (reward_dict : gmap (Z * Z) float)
    (goal : option Z) (default_reward : float) (s : Z) (act : Actions)
  : float :=
  match act with
  | ABSORB => if decide (goal = Some s) then zero else neg_infinity
  | _ =>
      let '(r, c) := shifted cols s act in
      if in_grid rows cols r c then
        match reward_dict !! (r, c) with
        | Some v => v
        | None => default_reward
        end
      else neg_infinity
  end.

(** A reward table of [n] states: a two-dimensional array of shape
    [(n, 9)] over a buffer of matching length. *)
Definition is_table (arr : ndarray) (n : Z) : Prop :=
  shape arr = [n; len_Actions] /\
  length (data arr) = Z.to_nat (n * len_Actions).

(** An instance as the constructor leaves it and as [set_goal],
    [set_all_goals] and [copy] keep it. *)
Definition valid_instance (h : store) (m : GridWorldMDP) : Prop :=
  0 < rows m /\ 0 < cols m /\
  num_S m = rows m * cols m /\ num_A m = len_Actions /\
  exists arr, h !! rewards m = Some arr /\ is_table arr (rows m * cols m).

(** A pass of optional writes: item [x] writes [v] at flat position
    [pos x] when [w x = Some v] and leaves the array alone otherwise. *)
Definition write_opt {T} (pos : T -> Z) (w : T -> option float)
    (arr : ndarray) (x : T) : ndarray :=
  match w x with
  | Some v => write_cell arr (pos x) v
  | None => arr
  end.

(** Where [_transition] lands and whether it reports the move illegal. *)
Definition landing (rows cols s : Z) (act : Actions) : Z * bool :=
  let '(r, c) := shifted cols s act in
  if in_grid rows cols r c then (r * cols + c, false) else (s, true).

(** The array [arr[:, j].fill(v)] leaves behind. *)
Definition filled (n m j : Z) (v : float) (arr : ndarray) : ndarray :=
  foldl (write_opt (fun i => i * m + j) (fun _ => Some v)) arr (seqZ 0 n).

(** Reading [self.rewards[s, a]] in store [h]. *)
Definition rewardTable (h : store) (self : GridWorldMDP) (s a : Z)
  : result float :=
  fst (np_getitem2 (rewards self) s a h).

(** The row that [arr[g, ABSORB] = 0] writes in a table of [n] rows, if
    numpy accepts the index [g]. *)
Definition accepted_goal (n : Z) (goal_state : option Z) : option Z :=
  match goal_state with
  | Some g =>
      match norm_index n g with
      | Ok i => Some i
      | Raise _ => None
      end
  | None => None
  end.

(** The array [set_goal] leaves behind in a table with [n] rows of [m]
    cells, whether or not the goal index is accepted. *)
Definition regoaled (n m : Z) (goal_state : option Z) (arr : ndarray)
  : ndarray :=
  let arr1 := filled n m 8 neg_infinity arr in
  match goal_state with
  | None => arr1
  | Some g =>
      match norm_index n g with
      | Ok i => write_cell arr1 (i * m + 8) zero
      | Raise _ => arr1
      end
  end.

(** What the body of the double loop stores at [(s, a)], if anything:
    negative infinity for an illegal move, the override of the landing
    coordinate for a legal one. *)
Definition entry_write (self : GridWorldMDP)
    (reward_dict : gmap (Z * Z) float) (p : Z * Z) : option float :=
  match _transition self (fst p) (snd p) true with
  | Ok (WithFlag s_prime illegal) =>
      match state_to_coor self s_prime with
      | Ok coor => if negb illegal then reward_dict !! coor
                   else Some neg_infinity
      | Raise _ => None
      end
  | _ => None
  end.

(** The pairs [(s, a)] in the order the double loop visits them. *)
Definition state_actions (S : Z) : list (Z * Z) :=
  range S ≫= (fun s => pair s <$> range len_Actions).

(** The flat position of [(s, a)] in a table. *)
Definition cell_pos (p : Z * Z) : Z := fst p * len_Actions + snd p.

(** The reward table when the double loop of [__init__] is done. *)
Definition loop_table (self : GridWorldMDP)
    (reward_dict : gmap (Z * Z) float) (default_reward : float) : ndarray :=
  foldl (write_opt cell_pos (entry_write self reward_dict))
    (fill (np_full [rows self * cols self; len_Actions] zero) default_reward)
    (state_actions (rows self * cols self)).

(** The instance [__init__] returns when it allocates in a store of size
    [k]. *)
Definition constructed (nr nc : Z) (k : nat) : GridWorldMDP :=
  {| rows := nr; cols := nc; num_S := nr * nc; num_A := len_Actions;
     rewards := k; state_rewards := S k |}.

(** A positive integer, and a negative one. *)
Definition positive_int (v : pyval) : Prop :=
  exists z, v = PyInt z /\ 0 < z.

Definition negative_int (v : pyval) : Prop :=
  exists z, v = PyInt z /\ z < 0.

(** [arr[i]] on a one-dimensional array *)
Definition getitem1 (arr : ndarray) (i : Z) : result float :=
  match shape arr with
  | [n] =>
      let* k := norm_index n i in
      read_cell arr k
  | _ => Raise IndexError
  end.

Definition np_getitem1 (l : loc) (i : Z) : M float :=
  fun h =>
    match h !! l with
    | Some arr => (getitem1 arr i, h)
    | None => (Raise DanglingReference, h)
    end.

(** Reading [self.state_rewards[s]] in store [h]. *)
Definition stateRewards (h : store) (self : GridWorldMDP) (s : Z)
  : result float :=
  fst (np_getitem1 (state_rewards self) s h).

(** The override a coordinate carries, the default reward otherwise. *)
Definition reward_at (reward_dict : gmap (Z * Z) float)
    (default_reward : float) (coor : Z * Z) : float :=
  match reward_dict !! coor with
  | Some v => v
  | None => default_reward
  end.

(** The action with the negated delta. *)
Definition opposite (act : Actions) : Actions :=
  match act with
  | UP => DOWN
  | DOWN => UP
  | LEFT => RIGHT
  | RIGHT => LEFT
  | UP_LEFT => DOWN_RIGHT
  | UP_RIGHT => DOWN_LEFT
  | DOWN_LEFT => UP_RIGHT
  | DOWN_RIGHT => UP_LEFT
  | ABSORB => ABSORB
  end.

(** The two goal reconfigurations, and a caller that issues a sequence of
    them, carrying on with the store a call leaves when it raises. *)
Inductive goal_op : Set :=
  | SetGoal (goal_state : option Z)
  | SetAllGoals.

Definition run_op (self : GridWorldMDP) (op : goal_op) : M unit :=
  match op with
  | SetGoal goal_state => set_goal self goal_state
  | SetAllGoals => set_all_goals self
  end.

Definition after_ops (self : GridWorldMDP) (ops : list goal_op) (h : store)
  : store :=
  foldl (fun h op => snd (run_op self op h)) h ops.

(** What the loop over the overrides does to [state_rewards] at one
    item. *)
Definition state_reward_step (nc : Z) (arr : ndarray) (item : Z * Z * float)
  : ndarray :=
  write_cell arr (item.1.1 * nc + item.1.2) item.2.

(** [state_rewards] when [__init__] is done. *)
Definition state_rewards_built (nr nc : Z) (reward_dict : gmap (Z * Z) float)
    (default_reward : float) : ndarray :=
  foldl (state_reward_step nc) (np_full [nr * nc] default_reward)
    (map_to_list reward_dict).

(** All overrides lie inside the grid. *)
Definition keys_in_grid (nr nc : Z) (reward_dict : gmap (Z * Z) float)
  : Prop :=
  forall r c v, reward_dict !! (r, c) = Some v -> 0 <= r < nr /\ 0 <= c < nc.

(** The goal is absent or an index numpy accepts on [n] rows. *)
Definition goal_in_range (n : Z) (goal_state : option Z) : Prop :=
  match goal_state with
  | Some g => - n <= g < n
  | None => True
  end.

(** ** Concrete instances *)

(** The 2x2 grid with goal state 3 and the store holding its two arrays. *)
Definition grid22 : GridWorldMDP :=
  {| rows := 2; cols := 2; num_S := 4; num_A := 9;
     rewards := 0%nat; state_rewards := 1%nat |}.

Definition ten : float := 10%float.

Definition dict22 : gmap (Z * Z) float := {[ (1, 1) := ten ]}.

Definition store22 : store :=
  snd (GridWorldMDP_init 2 2 dict22 (Some 3) zero []).

Lemma zero_is_not_neg_infinity : zero <> neg_infinity.
Proof.
  intros H.
  assert (E : PrimFloat.is_infinity zero = PrimFloat.is_infinity neg_infinity)
    by (rewrite H; reflexivity).
  vm_compute in E. discriminate E.
Qed.

(** ** Evaluating the monads *)

Lemma assert_true b : b = true -> assert_ b = Ok tt.
Proof. intros ->. reflexivity. Qed.

Lemma assert_false b : b = false -> assert_ b = Raise AssertionError.
Proof. intros ->. reflexivity. Qed.

Lemma norm_index_in_range n i : 0 <= i < n -> norm_index n i = Ok i.
Proof.
  intros H. unfold norm_index.
  replace ((0 <=? i) && (i <? n)) with true; [reflexivity|].
  symmetry. apply andb_true_iff. split; [apply Z.leb_le | apply Z.ltb_lt]; lia.
Qed.

Lemma norm_index_negative n i : - n <= i < 0 -> norm_index n i = Ok (i + n).
Proof.
  intros H. unfold norm_index.
  replace (0 <=? i) with false by (symmetry; apply Z.leb_gt; lia).
  replace ((- n <=? i) && (i <? 0)) with true; [reflexivity|].
  symmetry. apply andb_true_iff. split; [apply Z.leb_le | apply Z.ltb_lt]; lia.
Qed.

Lemma norm_index_Ok n i k : norm_index n i = Ok k -> 0 <= k < n.
Proof.
  unfold norm_index.
  destruct ((0 <=? i) && (i <? n)) eqn:E1.
  - intros [= <-]. apply andb_true_iff in E1 as [?%Z.leb_le ?%Z.ltb_lt]. lia.
  - destruct ((- n <=? i) && (i <? 0)) eqn:E2; [|discriminate].
    intros [= <-]. apply andb_true_iff in E2 as [?%Z.leb_le ?%Z.ltb_lt]. lia.
Qed.

(** ** Coordinates and states *)

Section Coordinates.

Variable self : GridWorldMDP.
Hypothesis rows_pos : 0 < rows self.
Hypothesis cols_pos : 0 < cols self.

Lemma coor_bounds s :
  0 <= s < rows self * cols self ->
  0 <= s / cols self < rows self /\ 0 <= s mod cols self < cols self.
Proof using All.
  intros [Hlo Hhi]. split.
  - split; [apply Z.div_pos; lia|].
    apply Z.div_lt_upper_bound; lia.
  - apply Z.mod_pos_bound; lia.
Qed.

Lemma state_bounds r c :
  0 <= r < rows self -> 0 <= c < cols self ->
  0 <= r * cols self + c < rows self * cols self.
Proof using All. intros Hr Hc. nia. Qed.

Lemma state_to_coor_valid s :
  0 <= s < rows self * cols self ->
  state_to_coor self s = Ok (s / cols self, s mod cols self).
Proof using All.
  intros Hs. unfold state_to_coor.
  rewrite assert_true by (apply Z.ltb_lt; lia). reflexivity.
Qed.

Lemma coor_to_state_valid r c :
  0 <= r < rows self -> 0 <= c < cols self ->
  coor_to_state self r c = Ok (r * cols self + c).
Proof using All.
  intros Hr Hc. unfold coor_to_state.
  rewrite !assert_true; [reflexivity| |];
    apply andb_true_iff; split; (apply Z.leb_le || apply Z.ltb_lt); lia.
Qed.

Lemma encode_decode s : s / cols self * cols self + s mod cols self = s.
Proof using All. rewrite (Z.div_mod s (cols self)) at 3 by lia. lia. Qed.

Lemma decode_encode r c :
  0 <= c < cols self ->
  (r * cols self + c) / cols self = r /\ (r * cols self + c) mod cols self = c.
Proof using All.
  intros Hc. split.
  - rewrite Z.div_add_l by lia. rewrite Z.div_small by lia. lia.
  - rewrite Z.add_comm, Z.mod_add by lia. apply Z.mod_small; lia.
Qed.

End Coordinates.

(** C4. On a grid with positive dimensions, decoding a valid state and
    encoding the coordinate gives the state back, and encoding a valid
    coordinate [(r, c)] gives [r * cols + c], which decodes to [(r, c)]. *)
Theorem coor_state_roundtrip (self : GridWorldMDP) (s r c : Z) :
  0 < rows self -> 0 < cols self ->
  0 <= s < rows self * cols self ->
  0 <= r < rows self -> 0 <= c < cols self ->
  (let* (r0, c0) := state_to_coor self s in coor_to_state self r0 c0) = Ok s
  /\ coor_to_state self r c = Ok (r * cols self + c)
  /\ (let* s0 := coor_to_state self r c in state_to_coor self s0) = Ok (r, c).
Proof.
  intros Hrows Hcols Hs Hr Hc.
  destruct (coor_bounds self Hrows Hcols s Hs) as [Hr0 Hc0].
  repeat split.
  - rewrite state_to_coor_valid by assumption. simpl.
    rewrite coor_to_state_valid by assumption.
    f_equal. apply encode_decode; assumption.
  - apply coor_to_state_valid; assumption.
  - rewrite coor_to_state_valid by assumption. simpl.
    rewrite state_to_coor_valid
      by (try assumption; apply state_bounds; assumption).
    destruct (decode_encode self Hrows Hcols r c Hc) as [-> ->]. reflexivity.
Qed.

Lemma coor_state_roundtrip_witness :
  (let* (r0, c0) := state_to_coor grid22 3 in coor_to_state grid22 r0 c0) = Ok 3
  /\ coor_to_state grid22 1 0 = Ok (1 * cols grid22 + 0)
  /\ (let* s0 := coor_to_state grid22 1 0 in state_to_coor grid22 s0) = Ok (1, 0).
Proof.
  apply (coor_state_roundtrip grid22 3 1 0); simpl; lia.
Defined.

(** ** The transition function *)

Lemma value_range act : 0 <= value act < len_Actions.
Proof. destruct act; vm_compute; split; congruence. Qed.

Lemma value_inj act1 act2 : value act1 = value act2 -> act1 = act2.
Proof. destruct act1, act2; simpl; intros H; try reflexivity; discriminate H. Qed.

Lemma value_surj a : 0 <= a < len_Actions -> exists act, a = value act.
Proof.
  change len_Actions with 9. intros H.
  assert (a = 0 \/ a = 1 \/ a = 2 \/ a = 3 \/ a = 4 \/ a = 5 \/ a = 6
          \/ a = 7 \/ a = 8) as Hcases by lia.
  decompose [or] Hcases; subst a;
    [exists UP | exists DOWN | exists LEFT | exists RIGHT | exists UP_LEFT
    | exists UP_RIGHT | exists DOWN_LEFT | exists DOWN_RIGHT | exists ABSORB];
    reflexivity.
Qed.

Lemma in_grid_true rows cols r c :
  in_grid rows cols r c = true <-> 0 <= r < rows /\ 0 <= c < cols.
Proof.
  unfold in_grid. rewrite !andb_true_iff, !Z.leb_le, !Z.ltb_lt. lia.
Qed.

(** The bounds test of [_transition] is the negation of [in_grid]. *)
Lemma out_of_bounds_test rows cols r c :
  (r <? 0) || (r >=? rows) || (c <? 0) || (c >=? cols)
  = negb (in_grid rows cols r c).
Proof.
  unfold in_grid. rewrite Z.geb_leb, Z.geb_leb.
  rewrite !negb_andb, <- !Z.ltb_antisym, <- !Z.leb_antisym.
  reflexivity.
Qed.

Lemma _transition_landing self s act alert :
  0 < rows self -> 0 < cols self ->
  0 <= s < rows self * cols self ->
  _transition self s (value act) alert =
    let '(s_prime, illegal) := landing (rows self) (cols self) s act in
    Ok (if alert then WithFlag s_prime illegal else StateOnly s_prime).
Proof.
  intros Hrows Hcols Hs.
  destruct (coor_bounds self Hrows Hcols s Hs) as [Hr Hc].
  unfold _transition, landing, shifted.
  rewrite state_to_coor_valid by assumption. cbn [bindR].
  rewrite assert_true.
  2:{ pose proof (value_range act).
      apply andb_true_iff; split; [apply Z.geb_le | apply Z.ltb_lt]; lia. }
  cbn [bindR].
  set (r := s / cols self) in *. set (c := s mod cols self) in *.
  assert (Hstay : coor_to_state self r c = Ok s).
  { rewrite coor_to_state_valid by assumption.
    f_equal. apply encode_decode; assumption. }
  destruct act; cbn [value delta fst snd Z.eqb Pos.eqb bindR];
    rewrite out_of_bounds_test, ?Z.add_0_r; unfold Z.sub;
    change (- (1)) with (-1);
    match goal with
    | |- context [in_grid ?n ?m ?r' ?c'] =>
        destruct (in_grid n m r' c') eqn:E; cbn [negb]
    end;
    try (rewrite Hstay; reflexivity);
    apply in_grid_true in E as [? ?];
    rewrite coor_to_state_valid by assumption; reflexivity.
Qed.

Lemma landing_in_range rows cols s act :
  0 < rows -> 0 < cols -> 0 <= s < rows * cols ->
  0 <= fst (landing rows cols s act) < rows * cols.
Proof.
  intros Hrows Hcols Hs. unfold landing.
  destruct (shifted cols s act) as [r c].
  destruct (in_grid rows cols r c) eqn:E; simpl; [|assumption].
  apply in_grid_true in E as [? ?]. nia.
Qed.

Lemma landing_ABSORB rows cols s :
  0 < rows -> 0 < cols -> 0 <= s < rows * cols ->
  landing rows cols s ABSORB = (s, false).
Proof.
  intros Hrows Hcols Hs. unfold landing, shifted. simpl.
  rewrite !Z.add_0_r.
  replace (in_grid rows cols (s / cols) (s mod cols)) with true.
  - f_equal. rewrite (Z.div_mod s cols) at 3 by lia. lia.
  - symmetry. apply in_grid_true. split.
    + split; [apply Z.div_pos; lia | apply Z.div_lt_upper_bound; lia].
    + apply Z.mod_pos_bound; lia.
Qed.

(** C2. For a state of the grid and an action index in [[0, 9)]: ABSORB
    returns the state itself, flagged legal; any other action returns the
    state of the coordinate shifted by the action's delta, flagged legal,
    when that coordinate is inside the grid, and the state itself, flagged
    illegal, when it is not. *)
Theorem move_shifts_or_stays (self : GridWorldMDP) (s a : Z) :
  0 < rows self -> 0 < cols self ->
  0 <= s < rows self * cols self ->
  0 <= a < 9 ->
  exists act, a = value act /\
    _transition self s a true =
      Ok (match act with
          | ABSORB => WithFlag s false
          | _ =>
              let '(r, c) := (s / cols self + fst (delta act),
                              s mod cols self + snd (delta act)) in
              if in_grid (rows self) (cols self) r c
              then WithFlag (r * cols self + c) false
              else WithFlag s true
          end).
Proof.
  intros Hrows Hcols Hs Ha.
  destruct (value_surj a Ha) as [act ->]. exists act. split; [reflexivity|].
  rewrite _transition_landing by assumption.
  destruct act;
    try (unfold landing, shifted;
         match goal with
         | |- context [in_grid ?n ?m ?r' ?c'] => destruct (in_grid n m r' c')
         end; reflexivity).
  rewrite landing_ABSORB by assumption. reflexivity.
Qed.

Lemma move_shifts_or_stays_witness :
  exists act, 3 = value act /\
    _transition grid22 0 3 true =
      Ok (match act with
          | ABSORB => WithFlag 0 false
          | _ =>
              let '(r, c) := (0 / cols grid22 + fst (delta act),
                              0 mod cols grid22 + snd (delta act)) in
              if in_grid (rows grid22) (cols grid22) r c
              then WithFlag (r * cols grid22 + c) false
              else WithFlag 0 true
          end).
Proof.
  apply (move_shifts_or_stays grid22 0 3); simpl; lia.
Defined.

(** ** Argument checks of the coordinate maps *)

Lemma coor_to_state_out_of_range self r c :
  r < 0 \/ rows self <= r \/ c < 0 \/ cols self <= c ->
  coor_to_state self r c = Raise AssertionError.
Proof.
  intros H. unfold coor_to_state.
  destruct ((0 <=? r) && (r <? rows self)) eqn:Er; cbn [assert_ bindR];
    [|reflexivity].
  destruct ((0 <=? c) && (c <? cols self)) eqn:Ec; cbn [assert_ bindR];
    [|reflexivity].
  apply andb_true_iff in Er as [?%Z.leb_le ?%Z.ltb_lt].
  apply andb_true_iff in Ec as [?%Z.leb_le ?%Z.ltb_lt]. lia.
Qed.

Lemma state_to_coor_too_large self s :
  rows self * cols self <= s ->
  state_to_coor self s = Raise AssertionError.
Proof.
  intros H. unfold state_to_coor.
  rewrite assert_false by (apply Z.ltb_ge; lia). reflexivity.
Qed.

(** Only the upper bound is asserted: every state below [rows * cols],
    negative ones included, is decoded. *)
Lemma state_to_coor_below self s :
  s < rows self * cols self ->
  state_to_coor self s = Ok (s / cols self, s mod cols self).
Proof.
  intros H. unfold state_to_coor.
  rewrite assert_true by (apply Z.ltb_lt; lia). reflexivity.
Qed.

(** C6. On the 2x2 grid [state_to_coor] accepts the negative state [-1]
    and returns the coordinate [(-1, 1)], which is outside the grid. *)
Theorem state_to_coor_negative_accepted :
  state_to_coor grid22 (-1) = Ok (-1, 1)
  /\ in_grid (rows grid22) (cols grid22) (-1) 1 = false.
Proof. split; reflexivity. Qed.

(** ** Passes of writes over a buffer *)

Section Writes.

Context {T : Type} (pos : T -> Z) (w : T -> option float).

Let idx (x : T) : nat := Z.to_nat (pos x).

Lemma shape_write_opt arr x : shape (write_opt pos w arr x) = shape arr.
Proof. unfold write_opt. destruct (w x); reflexivity. Qed.

Lemma length_write_opt arr x :
  length (data (write_opt pos w arr x)) = length (data arr).
Proof.
  unfold write_opt. destruct (w x); [|reflexivity].
  simpl. apply length_insert.
Qed.

Lemma shape_foldl_writes xs arr :
  shape (foldl (write_opt pos w) arr xs) = shape arr.
Proof.
  revert arr. induction xs as [|x xs IH]; intros arr; simpl; [reflexivity|].
  rewrite IH. apply shape_write_opt.
Qed.

Lemma length_foldl_writes xs arr :
  length (data (foldl (write_opt pos w) arr xs)) = length (data arr).
Proof.
  revert arr. induction xs as [|x xs IH]; intros arr; simpl; [reflexivity|].
  rewrite IH. apply length_write_opt.
Qed.

Lemma read_write_opt_ne arr x k :
  idx x <> k -> data (write_opt pos w arr x) !! k = data arr !! k.
Proof.
  intros Hne. unfold write_opt. destruct (w x); [|reflexivity].
  simpl. apply list_lookup_insert_ne. exact Hne.
Qed.

Lemma read_write_opt_eq arr x :
  (idx x < length (data arr))%nat ->
  data (write_opt pos w arr x) !! idx x =
    match w x with
    | Some v => Some v
    | None => data arr !! idx x
    end.
Proof.
  intros Hlt. unfold write_opt. destruct (w x); [|reflexivity].
  simpl. apply list_lookup_insert_eq. exact Hlt.
Qed.

(** A position that no item writes keeps its content. *)
Lemma read_foldl_writes_other xs arr k :
  k ∉ idx <$> xs ->
  data (foldl (write_opt pos w) arr xs) !! k = data arr !! k.
Proof.
  revert arr. induction xs as [|x xs IH]; intros arr Hk; simpl;
    [reflexivity|].
  rewrite fmap_cons in Hk. apply not_elem_of_cons in Hk as [Hne Hk].
  rewrite IH by exact Hk. apply read_write_opt_ne. congruence.
Qed.

(** When the items write pairwise distinct positions, each position holds
    what its item wrote. *)
Lemma read_foldl_writes_at xs arr x :
  NoDup (idx <$> xs) -> x ∈ xs ->
  (idx x < length (data arr))%nat ->
  data (foldl (write_opt pos w) arr xs) !! idx x =
    match w x with
    | Some v => Some v
    | None => data arr !! idx x
    end.
Proof.
  revert arr. induction xs as [|y ys IH]; intros arr Hnd Hin Hlt.
  - apply elem_of_nil in Hin. contradiction.
  - rewrite fmap_cons in Hnd. apply NoDup_cons in Hnd as [Hy Hnd].
    simpl. apply elem_of_cons in Hin as [->|Hin].
    + rewrite read_foldl_writes_other by exact Hy.
      apply read_write_opt_eq. exact Hlt.
    + rewrite IH by (try assumption; rewrite length_write_opt; exact Hlt).
      assert (idx y <> idx x) as Hne.
      { intros E. apply Hy. rewrite E. apply list_elem_of_fmap_2. exact Hin. }
      rewrite read_write_opt_ne by exact Hne. reflexivity.
Qed.

End Writes.

(** ** Two-dimensional arrays *)

Lemma flat_index_inj m s a s' a' :
  0 <= s -> 0 <= s' -> 0 <= a < m -> 0 <= a' < m ->
  Z.to_nat (s * m + a) = Z.to_nat (s' * m + a') -> s = s' /\ a = a'.
Proof.
  intros Hs Hs' Ha Ha' E.
  assert (0 <= s * m) by (apply Z.mul_nonneg_nonneg; lia).
  assert (0 <= s' * m) by (apply Z.mul_nonneg_nonneg; lia).
  apply Z2Nat.inj in E; [|lia|lia].
  assert (s = s') as <-.
  { destruct (Z.lt_trichotomy s s') as [Hlt|[Heq|Hgt]];
      [exfalso|exact Heq|exfalso].
    - assert ((s + 1) * m <= s' * m)
        by (apply Z.mul_le_mono_nonneg_r; lia). lia.
    - assert ((s' + 1) * m <= s * m)
        by (apply Z.mul_le_mono_nonneg_r; lia). lia. }
  split; lia.
Qed.

Lemma flat_index_lt n m s a :
  0 <= s < n -> 0 <= a < m ->
  (Z.to_nat (s * m + a) < Z.to_nat (n * m))%nat.
Proof.
  intros Hs Ha.
  assert (s * m <= (n - 1) * m) by (apply Z.mul_le_mono_nonneg_r; lia).
  assert (0 <= s * m) by (apply Z.mul_nonneg_nonneg; lia).
  assert (0 <= n * m) by (apply Z.mul_nonneg_nonneg; lia).
  apply Z2Nat.inj_lt; lia.
Qed.

Lemma getitem2_in_range arr n m s a :
  shape arr = [n; m] -> 0 <= s < n -> 0 <= a < m ->
  getitem2 arr s a = read_cell arr (s * m + a).
Proof.
  intros Hsh Hs Ha. unfold getitem2. rewrite Hsh.
  rewrite !norm_index_in_range by assumption. reflexivity.
Qed.

Lemma setitem2_in_range arr n m s a v :
  shape arr = [n; m] -> 0 <= s < n -> 0 <= a < m ->
  setitem2 arr s a v = Ok (write_cell arr (s * m + a) v).
Proof.
  intros Hsh Hs Ha. unfold setitem2. rewrite Hsh.
  rewrite !norm_index_in_range by assumption. reflexivity.
Qed.

Lemma read_cell_Some arr k v :
  data arr !! Z.to_nat k = Some v -> read_cell arr k = Ok v.
Proof. intros H. unfold read_cell. rewrite H. reflexivity. Qed.

(** The positions of column [j] in a buffer with rows of length [m]. *)
Lemma column_positions n m j k :
  k ∈ (fun i => Z.to_nat (i * m + j)) <$> seqZ 0 n <->
  exists i, 0 <= i < n /\ k = Z.to_nat (i * m + j).
Proof.
  rewrite list_elem_of_fmap. split.
  - intros (i & -> & Hi). apply elem_of_seqZ in Hi. exists i. split; [lia|done].
  - intros (i & Hi & ->). exists i. split; [done|]. apply elem_of_seqZ. lia.
Qed.

Lemma column_positions_NoDup n m j :
  0 <= j < m ->
  NoDup ((fun i => Z.to_nat (i * m + j)) <$> seqZ 0 n).
Proof.
  intros Hj. apply NoDup_fmap_2_strong; [|apply NoDup_seqZ].
  intros i i' Hi Hi' E.
  apply elem_of_seqZ in Hi. apply elem_of_seqZ in Hi'.
  apply (flat_index_inj m i j i' j) in E; [tauto|lia..].
Qed.

Lemma fill_column_in_range arr n m j v :
  shape arr = [n; m] -> 0 <= j < m ->
  fill_column arr j v = Ok (filled n m j v arr).
Proof.
  intros Hsh Hj. unfold fill_column. rewrite Hsh.
  rewrite norm_index_in_range by assumption. reflexivity.
Qed.

Lemma shape_filled n m j v arr : shape (filled n m j v arr) = shape arr.
Proof. apply shape_foldl_writes. Qed.

Lemma length_filled n m j v arr :
  length (data (filled n m j v arr)) = length (data arr).
Proof. apply length_foldl_writes. Qed.

Lemma read_filled_column n m j v arr i :
  0 <= j < m -> 0 <= i < n ->
  (Z.to_nat (i * m + j) < length (data arr))%nat ->
  data (filled n m j v arr) !! Z.to_nat (i * m + j) = Some v.
Proof.
  intros Hj Hi Hlt. unfold filled.
  rewrite (read_foldl_writes_at (fun i => i * m + j) (fun _ => Some v)
             (seqZ 0 n) arr i); [reflexivity| | |exact Hlt].
  - apply column_positions_NoDup. exact Hj.
  - apply elem_of_seqZ. lia.
Qed.

Lemma read_filled_other n m j v arr i a :
  0 <= j < m -> 0 <= a < m -> a <> j -> 0 <= i ->
  data (filled n m j v arr) !! Z.to_nat (i * m + a) =
  data arr !! Z.to_nat (i * m + a).
Proof.
  intros Hj Ha Hne Hi. unfold filled.
  apply read_foldl_writes_other.
  rewrite column_positions. intros (i' & Hi' & E).
  apply flat_index_inj in E; [|lia..]. lia.
Qed.

Lemma ndarray_eq (arr1 arr2 : ndarray) :
  shape arr1 = shape arr2 ->
  (forall k, data arr1 !! k = data arr2 !! k) ->
  arr1 = arr2.
Proof.
  destruct arr1 as [sh1 d1], arr2 as [sh2 d2]. simpl.
  intros -> Hd. f_equal. apply list_eq. exact Hd.
Qed.

(** Filling a column again changes nothing, also after one of its cells
    was overwritten in between. *)
Lemma filled_absorbs n m j v arr (cell : option (Z * float)) :
  0 <= j < m ->
  let arr1 := filled n m j v arr in
  let arr2 :=
    match cell with
    | Some (i, x) => if decide (0 <= i < n) then write_cell arr1 (i * m + j) x
                     else arr1
    | None => arr1
    end in
  filled n m j v arr2 = arr1.
Proof.
  intros Hj arr1 arr2.
  assert (Hsh : shape arr2 = shape arr1).
  { subst arr2. destruct cell as [[i x]|]; [|reflexivity].
    destruct (decide (0 <= i < n)); reflexivity. }
  assert (Hlen : length (data arr2) = length (data arr1)).
  { subst arr2. destruct cell as [[i x]|]; [|reflexivity].
    destruct (decide (0 <= i < n)); [|reflexivity].
    simpl. apply length_insert. }
  assert (Hother : forall k,
    k ∉ (fun i => Z.to_nat (i * m + j)) <$> seqZ 0 n ->
    data arr2 !! k = data arr1 !! k).
  { intros k Hk. subst arr2. destruct cell as [[i x]|]; [|reflexivity].
    destruct (decide (0 <= i < n)) as [Hi|]; [|reflexivity].
    simpl. apply list_lookup_insert_ne. intros <-. apply Hk.
    apply column_positions. exists i. split; [exact Hi|reflexivity]. }
  apply ndarray_eq; [rewrite shape_filled; exact Hsh|].
  intros k.
  destruct (decide (k ∈ (fun i => Z.to_nat (i * m + j)) <$> seqZ 0 n))
    as [Hin|Hout].
  - apply column_positions in Hin as (i & Hi & ->).
    destruct (decide (Z.to_nat (i * m + j) < length (data arr))%nat)
      as [Hlt|Hge].
    + rewrite read_filled_column
        by (try assumption; rewrite Hlen; subst arr1;
            rewrite length_filled; exact Hlt).
      symmetry. apply read_filled_column; assumption.
    + rewrite (lookup_ge_None_2 (data arr1))
        by (subst arr1; rewrite length_filled; lia).
      apply lookup_ge_None_2. rewrite length_filled, Hlen. subst arr1.
      rewrite length_filled. lia.
  - unfold filled at 1. rewrite read_foldl_writes_other by exact Hout.
    apply Hother. exact Hout.
Qed.

(** ** Arrays in the store *)

Lemma modify_run l f h arr :
  h !! l = Some arr ->
  modify l f h =
    match f arr with
    | Ok arr' => (Ok tt, <[l := arr']> h)
    | Raise e => (Raise e, h)
    end.
Proof. intros H. unfold modify. rewrite H. reflexivity. Qed.

Lemma modify_dangling l f h :
  h !! l = None -> modify l f h = (Raise DanglingReference, h).
Proof. intros H. unfold modify. rewrite H. reflexivity. Qed.

Lemma store_insert_eq (h : store) l arr arr0 :
  h !! l = Some arr0 -> <[l := arr]> h !! l = Some arr.
Proof. intros H. apply list_lookup_insert_eq. eapply lookup_lt_Some, H. Qed.

(** A write through one reference is invisible through any other. *)
Lemma modify_frame l f h l' :
  l' <> l -> snd (modify l f h) !! l' = h !! l'.
Proof.
  intros Hne. unfold modify. destruct (h !! l) as [arr|]; [|reflexivity].
  destruct (f arr); [|reflexivity].
  simpl. apply list_lookup_insert_ne. congruence.
Qed.

Lemma modify_length l f h : length (snd (modify l f h)) = length h.
Proof.
  unfold modify. destruct (h !! l) as [arr|]; [|reflexivity].
  destruct (f arr); [|reflexivity].
  simpl. apply length_insert.
Qed.

Lemma rewardTable_at h self arr s a :
  h !! rewards self = Some arr -> rewardTable h self s a = getitem2 arr s a.
Proof. intros H. unfold rewardTable, np_getitem2. rewrite H. reflexivity. Qed.

(** ** Goal reconfiguration *)

(** [fill_column] at ABSORB either finds a two-dimensional array with more
    than eight columns or raises. *)
Lemma fill_column_ABSORB_cases arr :
  (exists n m, shape arr = [n; m] /\ 8 < m) \/
  (exists e, forall v, fill_column arr (value ABSORB) v = Raise e).
Proof.
  unfold fill_column. destruct (shape arr) as [|n [|m [|? ?]]];
    try (right; exists IndexError; reflexivity).
  destruct (norm_index m (value ABSORB)) as [j|e] eqn:E.
  - left. exists n, m. split; [reflexivity|].
    unfold norm_index in E. simpl in E.
    destruct (8 <? m) eqn:E8; [apply Z.ltb_lt in E8; exact E8|].
    rewrite andb_false_r in E. discriminate E.
  - right. exists e. reflexivity.
Qed.

Lemma set_goal_run self goal_state h arr n m :
  h !! rewards self = Some arr -> shape arr = [n; m] -> 8 < m ->
  set_goal self goal_state h =
    let arr1 := filled n m 8 neg_infinity arr in
    match goal_state with
    | None => (Ok tt, <[rewards self := arr1]> h)
    | Some g =>
        match norm_index n g with
        | Ok i => (Ok tt, <[rewards self := write_cell arr1 (i * m + 8) zero]> h)
        | Raise e => (Raise e, <[rewards self := arr1]> h)
        end
    end.
Proof.
  intros Hl Hsh Hm. unfold set_goal, bindM, np_fill_column.
  rewrite (modify_run _ _ _ _ Hl).
  change (value ABSORB) with 8.
  rewrite (fill_column_in_range arr n m) by (try assumption; lia).
  destruct goal_state as [g|]; [|reflexivity].
  unfold np_setitem2.
  rewrite (modify_run _ _ _ (filled n m 8 neg_infinity arr))
    by (eapply store_insert_eq, Hl).
  unfold setitem2. rewrite shape_filled, Hsh.
  destruct (norm_index n g) as [i|e]; cbn [bindR]; [|reflexivity].
  rewrite norm_index_in_range by lia. cbn [bindR].
  f_equal. apply list_insert_insert_eq.
Qed.

Lemma set_goal_no_table self goal_state h arr e :
  h !! rewards self = Some arr ->
  fill_column arr (value ABSORB) neg_infinity = Raise e ->
  set_goal self goal_state h = (Raise e, h).
Proof.
  intros Hl Hf. unfold set_goal, bindM, np_fill_column.
  rewrite (modify_run _ _ _ _ Hl), Hf. reflexivity.
Qed.

Lemma set_goal_dangling self goal_state h :
  h !! rewards self = None ->
  set_goal self goal_state h = (Raise DanglingReference, h).
Proof.
  intros Hl. unfold set_goal, bindM, np_fill_column.
  rewrite modify_dangling by exact Hl. reflexivity.
Qed.

Lemma set_goal_store self goal_state h arr n m :
  h !! rewards self = Some arr -> shape arr = [n; m] -> 8 < m ->
  snd (set_goal self goal_state h) =
    <[rewards self := regoaled n m goal_state arr]> h.
Proof.
  intros Hl Hsh Hm. rewrite (set_goal_run _ _ _ _ _ _ Hl Hsh Hm).
  unfold regoaled. destruct goal_state as [g|]; [|reflexivity].
  destruct (norm_index n g); reflexivity.
Qed.

Lemma shape_regoaled n m goal_state arr :
  shape (regoaled n m goal_state arr) = shape arr.
Proof.
  unfold regoaled. destruct goal_state as [g|]; [|apply shape_filled].
  destruct (norm_index n g); apply shape_filled.
Qed.

Lemma length_regoaled n m goal_state arr :
  length (data (regoaled n m goal_state arr)) = length (data arr).
Proof.
  unfold regoaled. destruct goal_state as [g|]; [|apply length_filled].
  destruct (norm_index n g); [|apply length_filled].
  simpl. rewrite length_insert. apply length_filled.
Qed.

(** Cells outside the ABSORB column keep their content. *)
Lemma read_regoaled_other n m goal_state arr i a :
  8 < m -> 0 <= a < m -> a <> 8 -> 0 <= i ->
  data (regoaled n m goal_state arr) !! Z.to_nat (i * m + a) =
  data arr !! Z.to_nat (i * m + a).
Proof.
  intros Hm Ha Hne Hi.
  assert (Hfilled :
    data (filled n m 8 neg_infinity arr) !! Z.to_nat (i * m + a) =
    data arr !! Z.to_nat (i * m + a))
    by (apply read_filled_other; lia).
  unfold regoaled. destruct goal_state as [g|]; [|exact Hfilled].
  destruct (norm_index n g) as [i'|] eqn:E; [|exact Hfilled].
  apply norm_index_Ok in E. simpl.
  rewrite list_lookup_insert_ne; [exact Hfilled|].
  intros E'. apply flat_index_inj in E'; lia.
Qed.

(** Cells of the ABSORB column: zero at the accepted goal index, negative
    infinity elsewhere. *)
Lemma read_regoaled_ABSORB n m goal_state arr i :
  8 < m -> 0 <= i < n ->
  (Z.to_nat (i * m + 8) < length (data arr))%nat ->
  data (regoaled n m goal_state arr) !! Z.to_nat (i * m + 8) =
    Some (if decide (accepted_goal n goal_state = Some i)
          then zero else neg_infinity).
Proof.
  intros Hm Hi Hlt.
  assert (Hfilled :
    data (filled n m 8 neg_infinity arr) !! Z.to_nat (i * m + 8) =
    Some neg_infinity)
    by (apply read_filled_column; [lia|lia|exact Hlt]).
  unfold regoaled, accepted_goal. destruct goal_state as [g|].
  2:{ rewrite Hfilled. rewrite decide_False; [reflexivity|discriminate]. }
  destruct (norm_index n g) as [i'|e] eqn:E.
  2:{ rewrite Hfilled. rewrite decide_False; [reflexivity|discriminate]. }
  apply norm_index_Ok in E. simpl.
  destruct (decide (i' = i)) as [->|Hne].
  - rewrite list_lookup_insert_eq by (rewrite length_filled; exact Hlt).
    rewrite decide_True; reflexivity.
  - rewrite list_lookup_insert_ne
      by (intros E'; apply flat_index_inj in E'; lia).
    rewrite Hfilled. rewrite decide_False; [reflexivity|congruence].
Qed.

Lemma accepted_goal_index n goal_state g :
  goal_state = Some g -> - n <= g < n ->
  accepted_goal n goal_state = goal_index n goal_state.
Proof.
  intros -> Hg. unfold accepted_goal, goal_index.
  destruct (Z.ltb_spec g 0).
  - rewrite norm_index_negative by lia. reflexivity.
  - rewrite norm_index_in_range by lia. reflexivity.
Qed.

Lemma filled_filled n m j v arr :
  0 <= j < m ->
  filled n m j v (filled n m j v arr) = filled n m j v arr.
Proof. intros Hj. exact (filled_absorbs n m j v arr None Hj). Qed.

Lemma filled_write_cell n m j v arr i x :
  0 <= j < m -> 0 <= i < n ->
  filled n m j v (write_cell (filled n m j v arr) (i * m + j) x)
  = filled n m j v arr.
Proof.
  intros Hj Hi. pose proof (filled_absorbs n m j v arr (Some (i, x)) Hj) as H.
  simpl in H. rewrite decide_True in H by exact Hi. exact H.
Qed.

Lemma filled_regoaled n m goal_state arr :
  8 < m ->
  filled n m 8 neg_infinity (regoaled n m goal_state arr)
  = filled n m 8 neg_infinity arr.
Proof.
  intros Hm. unfold regoaled.
  destruct goal_state as [g|]; [|apply filled_filled; lia].
  destruct (norm_index n g) as [i|] eqn:E; [|apply filled_filled; lia].
  apply norm_index_Ok in E. apply filled_write_cell; lia.
Qed.

Lemma valid_instance_table h m :
  valid_instance h m ->
  exists arr, h !! rewards m = Some arr
    /\ shape arr = [rows m * cols m; 9]
    /\ length (data arr) = Z.to_nat (rows m * cols m * 9).
Proof.
  intros (_ & _ & _ & _ & arr & Hl & Hsh & Hlen).
  exists arr. repeat split; assumption.
Qed.

(** Reading the ABSORB column of a valid instance after [set_goal]. *)
Lemma rewardTable_after_set_goal h m goal_state s :
  valid_instance h m -> 0 <= s < rows m * cols m ->
  rewardTable (snd (set_goal m goal_state h)) m s (value ABSORB) =
    Ok (if decide (accepted_goal (rows m * cols m) goal_state = Some s)
        then zero else neg_infinity).
Proof.
  intros Hv Hs. destruct (valid_instance_table h m Hv) as (arr & Hl & Hsh & Hlen).
  rewrite (set_goal_store _ _ _ _ _ _ Hl Hsh) by lia.
  erewrite rewardTable_at by (eapply store_insert_eq, Hl).
  rewrite (getitem2_in_range _ (rows m * cols m) 9)
    by (rewrite ?shape_regoaled; (assumption || (simpl; lia))).
  apply read_cell_Some. change (value ABSORB) with 8.
  apply read_regoaled_ABSORB; [lia|exact Hs|].
  rewrite Hlen. apply flat_index_lt; lia.
Qed.

Lemma set_goal_succeeds h m goal_state :
  valid_instance h m ->
  accepted_goal (rows m * cols m) goal_state = goal_index (rows m * cols m) goal_state ->
  fst (set_goal m goal_state h) = Ok tt.
Proof.
  intros Hv Hacc.
  destruct (valid_instance_table h m Hv) as (arr & Hl & Hsh & Hlen).
  rewrite (set_goal_run _ _ _ _ _ _ Hl Hsh) by lia.
  destruct goal_state as [g|]; [|reflexivity].
  unfold accepted_goal, goal_index in Hacc.
  destruct (norm_index (rows m * cols m) g); [reflexivity|discriminate].
Qed.

(** C3. On a valid instance and for a goal [g] in [[0, rows*cols)],
    [set_goal g] succeeds and leaves the ABSORB entry of every state [s]
    at 0 when [s = g] and at negative infinity otherwise, so it is 0
    exactly at [g]; [set_goal None] succeeds and leaves negative infinity
    at every state. The table before the call is arbitrary. *)
Theorem set_goal_ABSORB_column (h : store) (m : GridWorldMDP) (g s : Z) :
  valid_instance h m ->
  0 <= g < rows m * cols m ->
  0 <= s < rows m * cols m ->
  fst (set_goal m (Some g) h) = Ok tt
  /\ rewardTable (snd (set_goal m (Some g) h)) m s (value ABSORB)
     = Ok (if decide (s = g) then zero else neg_infinity)
  /\ (rewardTable (snd (set_goal m (Some g) h)) m s (value ABSORB) = Ok zero
      <-> s = g)
  /\ fst (set_goal m None h) = Ok tt
  /\ rewardTable (snd (set_goal m None h)) m s (value ABSORB)
     = Ok neg_infinity.
Proof.
  intros Hv Hg Hs.
  assert (Hacc : accepted_goal (rows m * cols m) (Some g) = Some g)
    by (unfold accepted_goal; rewrite norm_index_in_range by lia; reflexivity).
  assert (Hread :
    rewardTable (snd (set_goal m (Some g) h)) m s (value ABSORB)
    = Ok (if decide (s = g) then zero else neg_infinity)).
  { rewrite rewardTable_after_set_goal by assumption. rewrite Hacc.
    destruct (decide (s = g)) as [->|Hne].
    - rewrite decide_True; reflexivity.
    - rewrite decide_False; [reflexivity|congruence]. }
  split; [|split; [exact Hread|split; [|split]]].
  - apply set_goal_succeeds; [exact Hv|].
    rewrite Hacc. unfold goal_index.
    replace (g <? 0) with false by (symmetry; apply Z.ltb_ge; lia).
    reflexivity.
  - rewrite Hread. destruct (decide (s = g)) as [->|Hne].
    + split; reflexivity || (intros _; reflexivity).
    + split; [|contradiction].
      intros E. exfalso. apply zero_is_not_neg_infinity.
      apply (f_equal (fun x => match x with Ok v => v | Raise _ => zero end))
        in E.
      symmetry. exact E.
  - apply set_goal_succeeds; [exact Hv|reflexivity].
  - rewrite rewardTable_after_set_goal by assumption.
    rewrite decide_False; [reflexivity|discriminate].
Qed.

Lemma valid_grid22 : valid_instance store22 grid22.
Proof.
  unfold valid_instance. simpl.
  split; [lia|]. split; [lia|]. split; [reflexivity|]. split; [reflexivity|].
  eexists. split; [vm_compute; reflexivity|]. split; reflexivity.
Qed.

Lemma set_goal_ABSORB_column_witness :
  fst (set_goal grid22 (Some 1) store22) = Ok tt
  /\ rewardTable (snd (set_goal grid22 (Some 1) store22)) grid22 3 (value ABSORB)
     = Ok (if decide (3 = 1) then zero else neg_infinity)
  /\ (rewardTable (snd (set_goal grid22 (Some 1) store22)) grid22 3 (value ABSORB)
      = Ok zero <-> 3 = 1)
  /\ fst (set_goal grid22 None store22) = Ok tt
  /\ rewardTable (snd (set_goal grid22 None store22)) grid22 3 (value ABSORB)
     = Ok neg_infinity.
Proof.
  apply (set_goal_ABSORB_column store22 grid22 1 3);
    [exact valid_grid22 | simpl; lia | simpl; lia].
Defined.

(** What [set_goal] leaves in the store, in every case: a dangling
    reference or an array that is no table with an ABSORB column raises
    before anything is written. *)
Lemma set_goal_store_cases self goal_state h :
  snd (set_goal self goal_state h) = h
  /\ set_goal self goal_state (snd (set_goal self goal_state h))
     = set_goal self goal_state h
  \/ exists arr n m,
       h !! rewards self = Some arr /\ shape arr = [n; m] /\ 8 < m.
Proof.
  destruct (h !! rewards self) as [arr|] eqn:Hl.
  - destruct (fill_column_ABSORB_cases arr) as [(n & m & Hsh & Hm)|[e He]].
    + right. exists arr, n, m. repeat split; assumption.
    + left. rewrite (set_goal_no_table _ _ _ _ _ Hl (He _)). simpl.
      rewrite (set_goal_no_table _ _ _ _ _ Hl (He _)). split; reflexivity.
  - left. rewrite set_goal_dangling by exact Hl. simpl.
    rewrite set_goal_dangling by exact Hl. split; reflexivity.
Qed.

(** C7. [set_goal] leaves every entry outside the ABSORB column and every
    other array of the store as it was, and calling it a second time with
    the same argument gives the same outcome and the same store as the
    first call. This holds for any instance, store and goal, also when the
    call raises. *)
Theorem set_goal_frame_idempotent (self : GridWorldMDP)
    (goal_state : option Z) (h : store) (s a : Z) (l : loc) :
  0 <= a < 9 -> a <> value ABSORB -> l <> rewards self ->
  rewardTable (snd (set_goal self goal_state h)) self s a
  = rewardTable h self s a
  /\ snd (set_goal self goal_state h) !! l = h !! l
  /\ set_goal self goal_state (snd (set_goal self goal_state h))
     = set_goal self goal_state h.
Proof.
  intros Ha Hne Hl'.
  destruct (set_goal_store_cases self goal_state h)
    as [[Hsame Hidem]|(arr & n & m & Hl & Hsh & Hm)].
  { split; [|split]; [| |exact Hidem]; rewrite Hsame; reflexivity. }
  rewrite (set_goal_store _ _ _ _ _ _ Hl Hsh Hm).
  split; [|split].
  - erewrite rewardTable_at by (eapply store_insert_eq, Hl).
    rewrite (rewardTable_at _ _ _ _ _ Hl).
    unfold getitem2. rewrite shape_regoaled, Hsh.
    destruct (norm_index n s) as [i|e] eqn:Ei; [|reflexivity].
    apply norm_index_Ok in Ei. cbn [bindR].
    rewrite norm_index_in_range by lia. cbn [bindR].
    unfold read_cell.
    rewrite read_regoaled_other by (try assumption; lia). reflexivity.
  - apply list_lookup_insert_ne. congruence.
  - assert (Hl2 : <[rewards self := regoaled n m goal_state arr]> h
                    !! rewards self = Some (regoaled n m goal_state arr))
      by (eapply store_insert_eq, Hl).
    rewrite (set_goal_run _ _ _ _ n m Hl2)
      by (rewrite ?shape_regoaled; assumption).
    rewrite (set_goal_run _ _ _ _ n m Hl) by assumption.
    cbn zeta. rewrite filled_regoaled by exact Hm.
    destruct goal_state as [g|].
    + destruct (norm_index n g); f_equal; apply list_insert_insert_eq.
    + f_equal. apply list_insert_insert_eq.
Qed.

Lemma set_goal_frame_idempotent_witness :
  rewardTable (snd (set_goal grid22 (Some 1) store22)) grid22 3 0
  = rewardTable store22 grid22 3 0
  /\ snd (set_goal grid22 (Some 1) store22) !! 1%nat = store22 !! 1%nat
  /\ set_goal grid22 (Some 1) (snd (set_goal grid22 (Some 1) store22))
     = set_goal grid22 (Some 1) store22.
Proof.
  apply (set_goal_frame_idempotent grid22 (Some 1) store22 3 0 1%nat);
    simpl; lia.
Defined.

(** C10. On a valid instance, [set_goal g] with [-rows*cols <= g < 0]
    succeeds and gives the same outcome and the same store as
    [set_goal (rows*cols + g)]. Afterwards the ABSORB entry of every state
    [s] is 0 when [s = rows*cols + g] and negative infinity otherwise: the
    whole column was filled before the indexed entry was set. *)
Theorem set_goal_negative_index (h : store) (m : GridWorldMDP) (g s : Z) :
  valid_instance h m ->
  - (rows m * cols m) <= g < 0 ->
  0 <= s < rows m * cols m ->
  fst (set_goal m (Some g) h) = Ok tt
  /\ set_goal m (Some g) h = set_goal m (Some (rows m * cols m + g)) h
  /\ rewardTable (snd (set_goal m (Some g) h)) m (rows m * cols m + g)
       (value ABSORB) = Ok zero
  /\ rewardTable (snd (set_goal m (Some g) h)) m s (value ABSORB)
     = Ok (if decide (s = rows m * cols m + g) then zero else neg_infinity)
  /\ (rewardTable (snd (set_goal m (Some g) h)) m s (value ABSORB) = Ok zero
      <-> s = rows m * cols m + g).
Proof.
  intros Hv Hg Hs.
  assert (Hacc : accepted_goal (rows m * cols m) (Some g)
                 = Some (rows m * cols m + g)).
  { unfold accepted_goal. rewrite norm_index_negative by lia.
    f_equal. lia. }
  assert (Hread : forall s0, 0 <= s0 < rows m * cols m ->
    rewardTable (snd (set_goal m (Some g) h)) m s0 (value ABSORB)
    = Ok (if decide (s0 = rows m * cols m + g) then zero else neg_infinity)).
  { intros s0 Hs0. rewrite rewardTable_after_set_goal by assumption.
    rewrite Hacc. destruct (decide (s0 = rows m * cols m + g)) as [->|Hne].
    - rewrite decide_True; reflexivity.
    - rewrite decide_False; [reflexivity|congruence]. }
  split; [|split; [|split; [|split]]].
  - apply set_goal_succeeds; [exact Hv|].
    apply (accepted_goal_index _ _ g); [reflexivity|lia].
  - destruct (valid_instance_table h m Hv) as (arr & Hl & Hsh & Hlen).
    rewrite !(set_goal_run _ _ _ _ _ _ Hl Hsh) by lia.
    rewrite norm_index_negative by lia.
    rewrite norm_index_in_range by lia.
    replace (g + rows m * cols m) with (rows m * cols m + g) by lia.
    reflexivity.
  - rewrite Hread by lia. rewrite decide_True; reflexivity.
  - apply Hread. exact Hs.
  - rewrite Hread by exact Hs.
    destruct (decide (s = rows m * cols m + g)) as [->|Hne].
    + split; reflexivity || (intros _; reflexivity).
    + split; [|contradiction].
      intros E. exfalso. apply zero_is_not_neg_infinity.
      apply (f_equal (fun x => match x with Ok v => v | Raise _ => zero end))
        in E.
      symmetry. exact E.
Qed.

Lemma set_goal_negative_index_witness :
  fst (set_goal grid22 (Some (-1)) store22) = Ok tt
  /\ set_goal grid22 (Some (-1)) store22
     = set_goal grid22 (Some (rows grid22 * cols grid22 + -1)) store22
  /\ rewardTable (snd (set_goal grid22 (Some (-1)) store22)) grid22
       (rows grid22 * cols grid22 + -1) (value ABSORB) = Ok zero
  /\ rewardTable (snd (set_goal grid22 (Some (-1)) store22)) grid22 0
       (value ABSORB)
     = Ok (if decide (0 = rows grid22 * cols grid22 + -1)
           then zero else neg_infinity)
  /\ (rewardTable (snd (set_goal grid22 (Some (-1)) store22)) grid22 0
        (value ABSORB) = Ok zero
      <-> 0 = rows grid22 * cols grid22 + -1).
Proof.
  apply (set_goal_negative_index store22 grid22 (-1) 0);
    [exact valid_grid22 | simpl; lia | simpl; lia].
Defined.

(** ** Running loops *)

Lemma bindM_Ok {T U} (x : M T) (k : T -> M U) h v h1 :
  x h = (Ok v, h1) -> bindM x k h = k v h1.
Proof. intros H. unfold bindM. rewrite H. reflexivity. Qed.

Lemma bindM_Raise {T U} (x : M T) (k : T -> M U) h e h1 :
  x h = (Raise e, h1) -> bindM x k h = (Raise e, h1).
Proof. intros H. unfold bindM. rewrite H. reflexivity. Qed.

(** A loop whose body rewrites the array behind [l] by a pure step is a
    fold of that step. *)
Lemma for_modify_pure {T} (xs : list T) (body : T -> M unit)
    (step : ndarray -> T -> ndarray) (I : ndarray -> Prop) (l : loc) :
  (forall x arr (h : store), x ∈ xs -> I arr -> h !! l = Some arr ->
     body x h = (Ok tt, <[l := step arr x]> h)) ->
  (forall x arr, x ∈ xs -> I arr -> I (step arr x)) ->
  forall arr (h : store), I arr -> h !! l = Some arr ->
    for_ xs body h = (Ok tt, <[l := foldl step arr xs]> h).
Proof.
  induction xs as [|x xs IH]; intros Hbody Hstep arr h HI Hl.
  - simpl. unfold ret. f_equal. symmetry. apply list_insert_id. exact Hl.
  - simpl. rewrite (bindM_Ok _ _ _ _ _ (Hbody x arr h ltac:(left) HI Hl)).
    rewrite (IH (fun y a h' Hy => Hbody y a h' (list_elem_of_further _ _ _ Hy))
                (fun y a Hy => Hstep y a (list_elem_of_further _ _ _ Hy))
                (step arr x) (<[l := step arr x]> h)).
    + f_equal. apply list_insert_insert_eq.
    + apply Hstep; [left|exact HI].
    + eapply store_insert_eq, Hl.
Qed.

(** A loop whose body only writes behind [l] leaves every other array and
    the size of the store alone, whether or not it raises. *)
Lemma for_frame {T} (xs : list T) (body : T -> M unit) (l : loc) :
  (forall x (h : store),
     length (snd (body x h)) = length h /\
     forall l', l' <> l -> snd (body x h) !! l' = h !! l') ->
  forall h : store,
    length (snd (for_ xs body h)) = length h /\
    forall l', l' <> l -> snd (for_ xs body h) !! l' = h !! l'.
Proof.
  intros Hbody. induction xs as [|x xs IH]; intros h.
  - simpl. split; [reflexivity|]. intros; reflexivity.
  - simpl. unfold bindM. destruct (Hbody x h) as [Hlen Hfr].
    destruct (body x h) as [[[]|e] h1]; simpl in *.
    + destruct (IH h1) as [Hlen1 Hfr1]. split; [congruence|].
      intros l' Hne. rewrite Hfr1 by exact Hne. apply Hfr. exact Hne.
    + split; assumption.
Qed.

Lemma foldl_nested {A X Y} (f : A -> X * Y -> A) (xs : list X)
    (ys : list Y) (acc : A) :
  foldl (fun acc x => foldl (fun acc y => f acc (x, y)) acc ys) acc xs
  = foldl f acc (xs ≫= (fun x => pair x <$> ys)).
Proof.
  revert acc. induction xs as [|x xs IH]; intros acc; [reflexivity|].
  rewrite bind_cons, foldl_app, foldl_fmap. simpl. apply IH.
Qed.

Lemma elem_of_state_actions S s a :
  (s, a) ∈ state_actions S <-> 0 <= s < S /\ 0 <= a < len_Actions.
Proof.
  unfold state_actions, range. rewrite list_elem_of_bind. split.
  - intros (s' & Hin & Hs'). apply list_elem_of_fmap in Hin as (a' & [= -> ->] & Ha').
    apply elem_of_seqZ in Hs'. apply elem_of_seqZ in Ha'. lia.
  - intros [Hs Ha]. exists s. split.
    + apply list_elem_of_fmap. exists a. split; [reflexivity|].
      apply elem_of_seqZ. lia.
    + apply elem_of_seqZ. lia.
Qed.

Lemma state_actions_NoDup S :
  NoDup ((fun p => Z.to_nat (cell_pos p)) <$> state_actions S).
Proof.
  apply NoDup_fmap_2_strong.
  - intros [s a] [s' a'] Hp Hp' E.
    apply elem_of_state_actions in Hp. apply elem_of_state_actions in Hp'.
    unfold cell_pos in E. simpl in E.
    apply flat_index_inj in E; [|lia..]. destruct E; congruence.
  - unfold state_actions. apply NoDup_bind.
    + intros s s' [s0 a0] _ _ H H'.
      apply list_elem_of_fmap in H as (? & [= -> ->] & _).
      apply list_elem_of_fmap in H' as (? & [= -> _] & _). reflexivity.
    + intros s _. apply NoDup_fmap_2; [|apply NoDup_seqZ].
      intros a a' [= E]. exact E.
    + apply NoDup_seqZ.
Qed.

(** ** The constructor *)

Lemma store_lookup_last (h : store) arr : (h ++ [arr]) !! length h = Some arr.
Proof. apply list_lookup_middle. reflexivity. Qed.

Lemma store_insert_last (h : store) arr arr' :
  <[length h := arr']> (h ++ [arr]) = h ++ [arr'].
Proof.
  rewrite insert_app_r_alt by lia. rewrite Nat.sub_diag. reflexivity.
Qed.

Lemma fill_entry_run nr nc reward_dict l (h : store) arr s a :
  0 < nr -> 0 < nc ->
  0 <= s < nr * nc -> 0 <= a < len_Actions ->
  h !! l = Some arr -> shape arr = [nr * nc; len_Actions] ->
  fill_entry (bare nr nc) l reward_dict s a h =
    (Ok tt,
     <[l := write_opt cell_pos (entry_write (bare nr nc) reward_dict)
              arr (s, a)]> h).
Proof.
  intros Hrows Hcols Hs Ha Hl Hsh.
  destruct (value_surj a Ha) as [act ->].
  unfold fill_entry, write_opt, entry_write, cell_pos. cbn [fst snd].
  rewrite _transition_landing by assumption.
  pose proof (landing_in_range nr nc s act Hrows Hcols Hs) as Hland.
  cbn [rows cols bare] in *.
  destruct (landing nr nc s act) as [s_prime illegal]. cbn [fst] in Hland.
  unfold bindM, lift.
  rewrite (state_to_coor_valid (bare nr nc)) by assumption.
  assert (Hset : forall v,
    np_setitem2 l s (value act) v h =
      (Ok tt, <[l := write_cell arr (s * len_Actions + value act) v]> h)).
  { intros v. unfold np_setitem2. rewrite (modify_run _ _ _ _ Hl).
    rewrite (setitem2_in_range arr (nr * nc) len_Actions)
      by assumption.
    reflexivity. }
  destruct illegal; cbn [negb].
  - apply Hset.
  - destruct (reward_dict !! _) as [v|]; [apply Hset|].
    unfold ret. f_equal. symmetry. apply list_insert_id. exact Hl.
Qed.

Lemma loops_run nr nc reward_dict l (h : store) arr :
  0 < nr -> 0 < nc ->
  h !! l = Some arr -> shape arr = [nr * nc; len_Actions] ->
  for_ (range (nr * nc)) (fun s =>
    for_ (range len_Actions) (fun a =>
      fill_entry (bare nr nc) l reward_dict s a)) h =
    (Ok tt,
     <[l := foldl (write_opt cell_pos (entry_write (bare nr nc) reward_dict))
              arr (state_actions (nr * nc))]> h).
Proof.
  intros Hrows Hcols Hl Hsh.
  set (w := write_opt cell_pos (entry_write (bare nr nc) reward_dict)).
  set (I := fun a : ndarray => shape a = [nr * nc; len_Actions]).
  unfold state_actions. rewrite <- foldl_nested.
  apply (for_modify_pure _ _
           (fun acc s => foldl (fun acc a => w acc (s, a)) acc
                           (range len_Actions)) I);
    [| |exact Hsh|exact Hl].
  - intros s arr1 h1 Hs HI1 Hl1. apply elem_of_seqZ in Hs.
    apply (for_modify_pure _ _ (fun acc a => w acc (s, a)) I);
      [| |exact HI1|exact Hl1].
    + intros a arr2 h2 Ha HI2 Hl2. apply elem_of_seqZ in Ha.
      apply fill_entry_run; (assumption || lia).
    + intros a arr2 _ HI2. unfold I, w. rewrite shape_write_opt. exact HI2.
  - intros s arr1 _ HI1. unfold I.
    change (foldl (fun acc a => w acc (s, a)) arr1 (range len_Actions))
      with (foldl (write_opt (fun a => cell_pos (s, a))
                     (fun a => entry_write (bare nr nc) reward_dict (s, a)))
              arr1 (range len_Actions)).
    rewrite shape_foldl_writes. exact HI1.
Qed.

(** The constructor up to the loop over the overrides: both arrays are
    allocated and the reward table holds what the double loop wrote. *)
Lemma GridWorldMDP_init_run nr nc reward_dict goal_state default_reward
    (h : store) :
  0 < nr -> 0 < nc ->
  GridWorldMDP_init nr nc reward_dict goal_state default_reward h =
    let self := constructed nr nc (length h) in
    bindM (for_ (map_to_list reward_dict)
             (fill_state_reward self (S (length h))))
      (fun _ => bindM (set_goal self goal_state) (fun _ => ret self))
      ((h ++ [loop_table (bare nr nc) reward_dict default_reward])
         ++ [np_full [nr * nc] default_reward]).
Proof.
  intros Hnr Hnc. unfold GridWorldMDP_init.
  rewrite (bindM_Ok _ _ h tt h)
    by (unfold lift; rewrite assert_true by (apply Z.gtb_lt; lia); reflexivity).
  rewrite (bindM_Ok _ _ h tt h)
    by (unfold lift; rewrite assert_true by (apply Z.gtb_lt; lia); reflexivity).
  cbv zeta.
  set (zeros := np_full [nr * nc; len_Actions] zero).
  rewrite (bindM_Ok _ _ h (length h) (h ++ [zeros])) by reflexivity.
  rewrite (bindM_Ok _ _ _ tt (h ++ [fill zeros default_reward])).
  2:{ unfold np_fill. rewrite (modify_run _ _ _ _ (store_lookup_last h zeros)).
      rewrite store_insert_last. reflexivity. }
  rewrite (bindM_Ok _ _ _ tt
             (h ++ [loop_table (bare nr nc) reward_dict default_reward])).
  2:{ rewrite (loops_run nr nc reward_dict (length h) _
                 (fill zeros default_reward)); try assumption.
      - rewrite store_insert_last. reflexivity.
      - apply store_lookup_last.
      - reflexivity. }
  rewrite (bindM_Ok _ _ _
             {| mdp_S := PyInt (nr * nc); mdp_A := PyInt len_Actions;
                mdp_rewards := length h;
                mdp_transition := PyFun (transition (bare nr nc)) |}
             (h ++ [loop_table (bare nr nc) reward_dict default_reward])).
  2:{ assert (Hshape :
        shape_eq (shape (loop_table (bare nr nc) reward_dict default_reward))
          (PyInt (nr * nc)) (PyInt len_Actions) = true).
      { unfold loop_table. rewrite shape_foldl_writes.
        cbn [fill np_full shape shape_eq int_eq rows cols bare].
        rewrite !Z.eqb_refl. reflexivity. }
      unfold MDP_init, bindM, lift, load. cbn [isinstance_int assert_].
      rewrite store_lookup_last, Hshape. reflexivity. }
  rewrite (bindM_Ok _ _ _ (S (length h))
             ((h ++ [loop_table (bare nr nc) reward_dict default_reward])
                ++ [np_full [nr * nc] default_reward])).
  2:{ unfold np_full_new, alloc. rewrite length_app. simpl.
      rewrite Nat.add_1_r. reflexivity. }
  reflexivity.
Qed.

Lemma fill_state_reward_frame self sr item (h : store) :
  length (snd (fill_state_reward self sr item h)) = length h /\
  forall l', l' <> sr -> snd (fill_state_reward self sr item h) !! l' = h !! l'.
Proof.
  destruct item as [[r c] reward]. unfold fill_state_reward, bindM, lift.
  destruct (coor_to_state self r c) as [i|e]; simpl.
  - split; [apply modify_length|]. intros l' Hne. apply modify_frame. exact Hne.
  - split; [reflexivity|]. intros; reflexivity.
Qed.

Lemma norm_index_goal_index n g i :
  norm_index n g = Ok i ->
  accepted_goal n (Some g) = goal_index n (Some g).
Proof.
  intros H. unfold accepted_goal, goal_index. rewrite H. f_equal.
  unfold norm_index in H.
  destruct ((0 <=? g) && (g <? n)) eqn:E1.
  - injection H as <-.
    apply andb_true_iff in E1 as [H0%Z.leb_le _].
    replace (g <? 0) with false by (symmetry; apply Z.ltb_ge; lia).
    reflexivity.
  - destruct ((- n <=? g) && (g <? 0)) eqn:E2; [|discriminate].
    injection H as <-.
    apply andb_true_iff in E2 as [_ ->]. reflexivity.
Qed.

Lemma data_fill_full sh v :
  data (fill (np_full sh zero) v) = replicate (Z.to_nat (numel sh)) v.
Proof. unfold fill, np_full. simpl. rewrite length_replicate. reflexivity. Qed.

Lemma numel_table n m : numel [n; m] = n * m.
Proof. unfold numel. simpl. lia. Qed.

Lemma shape_loop_table nr nc reward_dict default_reward :
  shape (loop_table (bare nr nc) reward_dict default_reward)
  = [nr * nc; len_Actions].
Proof. unfold loop_table. rewrite shape_foldl_writes. reflexivity. Qed.

Lemma length_loop_table nr nc reward_dict default_reward :
  length (data (loop_table (bare nr nc) reward_dict default_reward))
  = Z.to_nat (nr * nc * len_Actions).
Proof.
  unfold loop_table. rewrite length_foldl_writes, data_fill_full.
  rewrite length_replicate, numel_table. reflexivity.
Qed.

(** What a successful construction leaves behind. *)
Lemma GridWorldMDP_init_inversion nr nc reward_dict goal_state default_reward
    (h : store) m (h' : store) :
  GridWorldMDP_init nr nc reward_dict goal_state default_reward h = (Ok m, h') ->
  0 < nr /\ 0 < nc
  /\ m = constructed nr nc (length h)
  /\ accepted_goal (nr * nc) goal_state = goal_index (nr * nc) goal_state
  /\ h' !! length h =
       Some (regoaled (nr * nc) len_Actions goal_state
               (loop_table (bare nr nc) reward_dict default_reward))
  /\ length h' = S (S (length h))
  /\ forall l, (l < length h)%nat -> h' !! l = h !! l.
Proof.
  intros Hinit.
  assert (0 < nr) as Hnr.
  { destruct (Z.ltb_spec 0 nr) as [|Hle]; [assumption|exfalso].
    unfold GridWorldMDP_init in Hinit.
    rewrite (bindM_Raise _ _ h AssertionError h) in Hinit; [discriminate|].
    unfold lift. rewrite assert_false; [reflexivity|].
    rewrite Z.gtb_ltb. apply Z.ltb_ge. exact Hle. }
  assert (0 < nc) as Hnc.
  { destruct (Z.ltb_spec 0 nc) as [|Hle]; [assumption|exfalso].
    unfold GridWorldMDP_init in Hinit.
    rewrite (bindM_Ok _ _ h tt h) in Hinit
      by (unfold lift; rewrite assert_true by (apply Z.gtb_lt; lia);
          reflexivity).
    rewrite (bindM_Raise _ _ h AssertionError h) in Hinit; [discriminate|].
    unfold lift. rewrite assert_false; [reflexivity|].
    rewrite Z.gtb_ltb. apply Z.ltb_ge. exact Hle. }
  rewrite GridWorldMDP_init_run in Hinit by assumption. cbv zeta in Hinit.
  set (tbl := loop_table (bare nr nc) reward_dict default_reward) in *.
  set (h2 := (h ++ [tbl]) ++ [np_full [nr * nc] default_reward]) in *.
  set (self := constructed nr nc (length h)) in *.
  destruct (for_frame (map_to_list reward_dict)
              (fill_state_reward self (S (length h))) (S (length h))
              (fill_state_reward_frame self (S (length h))) h2)
    as [Hlen3 Hframe3].
  unfold bindM at 1 in Hinit.
  destruct (for_ (map_to_list reward_dict)
              (fill_state_reward self (S (length h))) h2)
    as [[[]|e] h3]; [|discriminate].
  cbn [snd] in Hlen3, Hframe3.
  assert (Hlen2 : length h2 = S (S (length h))).
  { unfold h2. rewrite !length_app. simpl. lia. }
  assert (Hl3 : h3 !! rewards self = Some tbl).
  { cbn [rewards self constructed]. rewrite Hframe3 by lia.
    unfold h2. rewrite lookup_app_l by (rewrite length_app; simpl; lia).
    apply store_lookup_last. }
  unfold bindM in Hinit.
  rewrite (set_goal_run self goal_state h3 tbl (nr * nc) len_Actions Hl3)
    in Hinit; [|apply shape_loop_table|reflexivity].
  cbv zeta in Hinit.
  assert (Hold : forall l, (l < length h)%nat -> h3 !! l = h !! l).
  { intros l Hl. rewrite Hframe3 by lia. unfold h2.
    rewrite lookup_app_l by (rewrite length_app; simpl; lia).
    apply lookup_app_l. exact Hl. }
  assert (Hfinal : forall arr' : ndarray,
    (Ok self, <[rewards self := arr']> h3) = (Ok m, h') ->
    m = self /\ h' !! length h = Some arr' /\ length h' = S (S (length h))
    /\ forall l, (l < length h)%nat -> h' !! l = h !! l).
  { intros arr' [= <- <-]. split; [reflexivity|]. split; [|split].
    - eapply store_insert_eq, Hl3.
    - rewrite length_insert. lia.
    - intros l Hl. cbn [rewards self constructed].
      rewrite list_lookup_insert_ne by lia. apply Hold. exact Hl. }
  split; [exact Hnr|]. split; [exact Hnc|].
  unfold regoaled. destruct goal_state as [g|].
  - destruct (norm_index (nr * nc) g) as [i|e] eqn:Eg; [|discriminate].
    unfold ret in Hinit. apply Hfinal in Hinit as (-> & Hl' & Hlen' & Hfr').
    split; [reflexivity|]. split; [eapply norm_index_goal_index, Eg|].
    split; [exact Hl'|]. split; assumption.
  - unfold ret in Hinit. apply Hfinal in Hinit as (-> & Hl' & Hlen' & Hfr').
    split; [reflexivity|]. split; [reflexivity|].
    split; [exact Hl'|]. split; assumption.
Qed.

Lemma entry_write_value nr nc reward_dict s act :
  0 < nr -> 0 < nc -> 0 <= s < nr * nc ->
  entry_write (bare nr nc) reward_dict (s, value act) =
    let '(r, c) := shifted nc s act in
    if in_grid nr nc r c then reward_dict !! (r, c) else Some neg_infinity.
Proof.
  intros Hnr Hnc Hs. unfold entry_write. cbn [fst snd].
  rewrite _transition_landing by assumption.
  unfold landing. cbn [rows cols bare].
  destruct (shifted nc s act) as [r c].
  destruct (in_grid nr nc r c) eqn:E.
  - apply in_grid_true in E as [Hr Hc].
    rewrite (state_to_coor_valid (bare nr nc))
      by (try assumption; apply (state_bounds (bare nr nc)); assumption).
    cbn [negb cols bare].
    destruct (decode_encode (bare nr nc) Hnr Hnc r c Hc) as [E1 E2].
    cbn [cols bare] in E1, E2. rewrite E1, E2. reflexivity.
  - rewrite (state_to_coor_valid (bare nr nc)) by assumption. reflexivity.
Qed.

Lemma read_loop_table nr nc reward_dict goal default_reward s act :
  0 < nr -> 0 < nc -> 0 <= s < nr * nc -> act <> ABSORB ->
  data (loop_table (bare nr nc) reward_dict default_reward)
    !! Z.to_nat (s * len_Actions + value act)
  = Some (table_entry nr nc reward_dict goal default_reward s act).
Proof.
  intros Hnr Hnc Hs Hact. pose proof (value_range act) as Hv.
  assert (Hlt : (Z.to_nat (s * len_Actions + value act)
                 < Z.to_nat (nr * nc * len_Actions))%nat)
    by (apply flat_index_lt; assumption).
  unfold loop_table. cbn [rows cols bare].
  change (s * len_Actions + value act) with (cell_pos (s, value act)) in *.
  rewrite (read_foldl_writes_at cell_pos
             (entry_write (bare nr nc) reward_dict)
             (state_actions (nr * nc)) _ (s, value act)).
  - rewrite entry_write_value by assumption.
    assert (Hdefault :
      data (fill (np_full [nr * nc; len_Actions] zero) default_reward)
        !! Z.to_nat (cell_pos (s, value act)) = Some default_reward).
    { rewrite data_fill_full, numel_table.
      apply lookup_replicate_2. exact Hlt. }
    unfold table_entry.
    destruct (shifted nc s act) as [r c].
    destruct act; try contradiction;
      (destruct (in_grid nr nc r c); [|reflexivity];
       destruct (reward_dict !! (r, c)); [reflexivity|exact Hdefault]).
  - apply state_actions_NoDup.
  - apply elem_of_state_actions. split; assumption.
  - rewrite data_fill_full, length_replicate, numel_table. exact Hlt.
Qed.

(** Every entry of the table of a freshly constructed instance. *)
Lemma rewardTable_constructed nr nc reward_dict goal_state default_reward
    (h : store) m (h' : store) s act :
  GridWorldMDP_init nr nc reward_dict goal_state default_reward h = (Ok m, h') ->
  0 <= s < nr * nc ->
  rewardTable h' m s (value act) =
    Ok (table_entry nr nc reward_dict (goal_index (nr * nc) goal_state)
          default_reward s act).
Proof.
  intros Hinit Hs.
  destruct (GridWorldMDP_init_inversion _ _ _ _ _ _ _ _ Hinit)
    as (Hnr & Hnc & -> & Hacc & Hl & _ & _).
  pose proof (value_range act) as Hv.
  rewrite (rewardTable_at h' (constructed nr nc (length h)) _ _ _ Hl).
  rewrite (getitem2_in_range _ (nr * nc) len_Actions)
    by (rewrite ?shape_regoaled, ?shape_loop_table; (reflexivity || assumption)).
  apply read_cell_Some.
  destruct (decide (act = ABSORB)) as [->|Hact].
  - change (value ABSORB) with 8.
    rewrite read_regoaled_ABSORB;
      [|reflexivity|exact Hs
       |rewrite length_loop_table; apply flat_index_lt;
        [exact Hs|change len_Actions with 9; lia]].
    rewrite Hacc. reflexivity.
  - rewrite read_regoaled_other; [|reflexivity|exact Hv| |lia].
    + rewrite (read_loop_table nr nc reward_dict
                 (goal_index (nr * nc) goal_state)) by assumption.
      reflexivity.
    + intros E. apply Hact. apply value_inj. exact E.
Qed.

(** C1, as stated: ABSORB is free exactly at the state equal to the
    constructor's [goal_state]. A negative [goal_state] refutes it: numpy
    counts it from the end of the table, so on the 2x2 grid built with
    [goal_state = -1] the ABSORB entry of state 3 is 0 although 3 is not
    [-1]. *)
Lemma negative_goal_refutes_stated_table :
  ~ (forall nr nc reward_dict goal_state default_reward (h : store) m
       (h' : store) s a,
       0 < nr -> 0 < nc ->
       GridWorldMDP_init nr nc reward_dict goal_state default_reward h
         = (Ok m, h') ->
       0 <= s < nr * nc -> 0 <= a < 9 ->
       exists act, a = value act /\
         rewardTable h' m s a =
           Ok (table_entry nr nc reward_dict goal_state default_reward s act)).
Proof.
  intros H.
  destruct (H 2 2 ∅ (Some (-1)) zero [] (constructed 2 2 0)
              (snd (GridWorldMDP_init 2 2 ∅ (Some (-1)) zero [])) 3 8)
    as (act & Hact & Hread); try lia.
  - vm_compute. reflexivity.
  - apply (value_inj ABSORB) in Hact. subst act.
    vm_compute in Hread.
    apply zero_is_not_neg_infinity.
    apply (f_equal (fun x => match x with Ok v => v | Raise _ => zero end))
      in Hread.
    exact Hread.
Qed.

(** C1, amended. After a successful construction with positive
    dimensions, the entry of every state [s] and action [a] is: for
    ABSORB, 0 at the state that the goal index designates (a negative
    index counted from the end), negative infinity at the others; for any
    other action, negative infinity when the move leaves the grid, else the
    override of the destination coordinate when there is one, else the
    default reward. *)
Theorem reward_table_after_construction
    (nr nc : Z) (reward_dict : gmap (Z * Z) float) (goal_state : option Z)
    (default_reward : float) (h : store) (m : GridWorldMDP) (h' : store)
    (s a : Z) :
  0 < nr -> 0 < nc ->
  GridWorldMDP_init nr nc reward_dict goal_state default_reward h = (Ok m, h') ->
  0 <= s < nr * nc -> 0 <= a < 9 ->
  exists act, a = value act /\
    rewardTable h' m s a =
      Ok (table_entry nr nc reward_dict (goal_index (nr * nc) goal_state)
            default_reward s act).
Proof.
  intros _ _ Hinit Hs Ha.
  destruct (value_surj a Ha) as [act ->]. exists act. split; [reflexivity|].
  eapply rewardTable_constructed; eassumption.
Qed.

Lemma reward_table_after_construction_witness :
  exists act, 3 = value act /\
    rewardTable store22 grid22 0 3 =
      Ok (table_entry 2 2 dict22 (goal_index (2 * 2) (Some 3)) zero 0 act).
Proof.
  apply (reward_table_after_construction 2 2 dict22 (Some 3) zero [] grid22
           store22 0 3); try lia.
  vm_compute. reflexivity.
Defined.

(** C8. On a constructed instance, [_transition] returns a state of the
    grid for every state and every action index in [[0, 9)], with or
    without the illegality flag, and so does the bound method kept as
    [transition]; no exception is raised. The flag is set exactly when the
    coordinate shifted by the action's delta is outside the grid: then the
    returned state is the state the move started from and the table entry
    is negative infinity; otherwise the returned state is the shifted cell.
    ABSORB is never illegal, returns the state it started from, and its
    entry is negative infinity away from the goal. *)
Theorem move_is_total
    (nr nc : Z) (reward_dict : gmap (Z * Z) float) (goal_state : option Z)
    (default_reward : float) (h : store) (m : GridWorldMDP) (h' : store)
    (s a : Z) :
  GridWorldMDP_init nr nc reward_dict goal_state default_reward h = (Ok m, h') ->
  0 <= s < nr * nc -> 0 <= a < 9 ->
  exists act s_prime illegal,
    a = value act
    /\ _transition m s a true = Ok (WithFlag s_prime illegal)
    /\ _transition m s a false = Ok (StateOnly s_prime)
    /\ transition m s a = Ok s_prime
    /\ 0 <= s_prime < nr * nc
    /\ illegal = negb (in_grid nr nc (s / nc + fst (delta act))
                         (s mod nc + snd (delta act)))
    /\ (if in_grid nr nc (s / nc + fst (delta act))
             (s mod nc + snd (delta act))
        then s_prime = (s / nc + fst (delta act)) * nc
                       + (s mod nc + snd (delta act))
        else s_prime = s /\ rewardTable h' m s a = Ok neg_infinity)
    /\ (if illegal
        then s_prime = s /\ rewardTable h' m s a = Ok neg_infinity
        else True)
    /\ (if decide (a = value ABSORB)
        then s_prime = s /\ illegal = false /\
             rewardTable h' m s a =
               Ok (if decide (goal_index (nr * nc) goal_state = Some s)
                   then zero else neg_infinity)
        else True).
Proof.
  intros Hinit Hs Ha.
  destruct (value_surj a Ha) as [act ->].
  pose proof (rewardTable_constructed _ _ _ _ _ _ _ _ s act Hinit Hs) as Hread.
  destruct (GridWorldMDP_init_inversion _ _ _ _ _ _ _ _ Hinit)
    as (Hnr & Hnc & -> & _).
  set (m := constructed nr nc (length h)) in *.
  pose proof (landing_in_range nr nc s act Hnr Hnc Hs) as Hrange.
  assert (Htrans : forall alert,
    _transition m s (value act) alert =
      let '(s_prime, illegal) := landing nr nc s act in
      Ok (if alert then WithFlag s_prime illegal else StateOnly s_prime))
    by (intros alert; apply (_transition_landing m); assumption).
  unfold transition. rewrite !Htrans.
  destruct (landing nr nc s act) as [s_prime illegal] eqn:Eland.
  exists act, s_prime, illegal. cbn [fst] in Hrange.
  split; [reflexivity|].
  split; [reflexivity|]. split; [reflexivity|]. split; [reflexivity|].
  split; [exact Hrange|].
  assert (Hout : in_grid nr nc (s / nc + fst (delta act))
                   (s mod nc + snd (delta act)) = false ->
                 act <> ABSORB).
  { intros E ->. pose proof (landing_ABSORB nr nc s Hnr Hnc Hs) as HA.
    unfold landing, shifted in HA. rewrite E in HA. discriminate HA. }
  assert (Hneg : forall act0, act0 <> ABSORB ->
    in_grid nr nc (s / nc + fst (delta act0)) (s mod nc + snd (delta act0))
      = false ->
    table_entry nr nc reward_dict (goal_index (nr * nc) goal_state)
      default_reward s act0 = neg_infinity).
  { intros act0 Hact0 E. unfold table_entry, shifted. rewrite E.
    destruct act0; try reflexivity. contradiction. }
  unfold landing, shifted in Eland.
  destruct (in_grid nr nc (s / nc + fst (delta act))
              (s mod nc + snd (delta act))) eqn:E;
    injection Eland as <- <-; cbn [negb].
  - split; [reflexivity|]. split; [reflexivity|]. split; [exact I|].
    destruct (decide (value act = value ABSORB)) as [Eabs|]; [|exact I].
    apply value_inj in Eabs. subst act.
    split; [|split; [reflexivity|exact Hread]].
    cbn [delta fst snd]. rewrite !Z.add_0_r.
    rewrite (Z.div_mod s nc) at 3 by lia. lia.
  - pose proof (Hout eq_refl) as Hact.
    rewrite Hread, (Hneg act Hact E).
    split; [reflexivity|]. split; [split; reflexivity|].
    split; [split; reflexivity|].
    destruct (decide (value act = value ABSORB)) as [Eabs|]; [|exact I].
    apply value_inj in Eabs. contradiction.
Qed.

Lemma move_is_total_witness :
  exists act s_prime illegal,
    0 = value act
    /\ _transition grid22 0 0 true = Ok (WithFlag s_prime illegal)
    /\ _transition grid22 0 0 false = Ok (StateOnly s_prime)
    /\ transition grid22 0 0 = Ok s_prime
    /\ 0 <= s_prime < 2 * 2
    /\ illegal = negb (in_grid 2 2 (0 / 2 + fst (delta act))
                         (0 mod 2 + snd (delta act)))
    /\ (if in_grid 2 2 (0 / 2 + fst (delta act)) (0 mod 2 + snd (delta act))
        then s_prime = (0 / 2 + fst (delta act)) * 2
                       + (0 mod 2 + snd (delta act))
        else s_prime = 0 /\ rewardTable store22 grid22 0 0 = Ok neg_infinity)
    /\ (if illegal
        then s_prime = 0 /\ rewardTable store22 grid22 0 0 = Ok neg_infinity
        else True)
    /\ (if decide (0 = value ABSORB)
        then s_prime = 0 /\ illegal = false /\
             rewardTable store22 grid22 0 0 =
               Ok (if decide (goal_index (2 * 2) (Some 3) = Some 0)
                   then zero else neg_infinity)
        else True).
Proof.
  apply (move_is_total 2 2 dict22 (Some 3) zero [] grid22 store22 0 0);
    try lia.
  vm_compute. reflexivity.
Defined.

(** ** Construction succeeds *)

Lemma fill_state_reward_run nr nc k sr (h : store) arr r c reward :
  0 <= r < nr -> 0 <= c < nc ->
  h !! sr = Some arr -> shape arr = [nr * nc] ->
  fill_state_reward (constructed nr nc k) sr ((r, c), reward) h =
    (Ok tt, <[sr := write_cell arr (r * nc + c) reward]> h).
Proof.
  intros Hr Hc Hl Hsh. unfold fill_state_reward, bindM, lift.
  rewrite (coor_to_state_valid (constructed nr nc k))
    by (cbn [rows cols constructed]; (assumption || lia)).
  cbn [cols constructed]. unfold np_setitem1.
  rewrite (modify_run _ _ _ _ Hl). unfold setitem1. rewrite Hsh.
  rewrite norm_index_in_range; [reflexivity|].
  assert (r * nc <= (nr - 1) * nc) by (apply Z.mul_le_mono_nonneg_r; lia).
  assert (0 <= r * nc) by (apply Z.mul_nonneg_nonneg; lia).
  lia.
Qed.

(** With positive dimensions, overrides inside the grid and a goal that is
    absent or within [[-rows*cols, rows*cols)], [__init__] returns. *)
Lemma GridWorldMDP_init_succeeds nr nc reward_dict goal_state default_reward
    (h : store) :
  0 < nr -> 0 < nc ->
  (forall r c v, reward_dict !! (r, c) = Some v -> 0 <= r < nr /\ 0 <= c < nc) ->
  accepted_goal (nr * nc) goal_state = goal_index (nr * nc) goal_state ->
  exists h' : store,
    GridWorldMDP_init nr nc reward_dict goal_state default_reward h
    = (Ok (constructed nr nc (length h)), h').
Proof.
  intros Hnr Hnc Hkeys Hgoal.
  rewrite GridWorldMDP_init_run by assumption. cbv zeta.
  set (tbl := loop_table (bare nr nc) reward_dict default_reward).
  set (sr0 := np_full [nr * nc] default_reward).
  set (self := constructed nr nc (length h)).
  set (step := fun (arr : ndarray) (item : Z * Z * float) =>
                 write_cell arr (item.1.1 * nc + item.1.2) item.2).
  assert (Hsr : ((h ++ [tbl]) ++ [sr0]) !! S (length h) = Some sr0).
  { apply list_lookup_middle. rewrite length_app. simpl. lia. }
  rewrite (bindM_Ok _ _ _ tt
             (<[S (length h) := foldl step sr0 (map_to_list reward_dict)]>
                ((h ++ [tbl]) ++ [sr0]))).
  2:{ apply (for_modify_pure _ _ step (fun arr => shape arr = [nr * nc]));
        [| |reflexivity|exact Hsr].
      - intros [[r c] v] arr h1 Hin Hshape Hl.
        apply elem_of_map_to_list in Hin. apply Hkeys in Hin as [Hr Hc].
        apply fill_state_reward_run; assumption.
      - intros item arr _ Hshape. exact Hshape. }
  set (h3 := <[S (length h) := _]> _).
  assert (Hl3 : h3 !! rewards self = Some tbl).
  { unfold h3. cbn [rewards self constructed].
    rewrite list_lookup_insert_ne by lia.
    rewrite lookup_app_l by (rewrite length_app; simpl; lia).
    apply store_lookup_last. }
  unfold bindM.
  rewrite (set_goal_run self goal_state h3 tbl (nr * nc) len_Actions Hl3);
    [|apply shape_loop_table|reflexivity].
  cbv zeta. destruct goal_state as [g|]; [|eexists; reflexivity].
  unfold accepted_goal, goal_index in Hgoal.
  destruct (norm_index (nr * nc) g); [eexists; reflexivity|discriminate].
Qed.

(** ** Copies *)

Lemma set_goal_frame self goal_state (h : store) l :
  l <> rewards self -> snd (set_goal self goal_state h) !! l = h !! l.
Proof.
  intros Hne.
  destruct (set_goal_store_cases self goal_state h)
    as [[-> _]|(arr & n & m & Hl & Hsh & Hm)]; [reflexivity|].
  rewrite (set_goal_store _ _ _ _ _ _ Hl Hsh Hm).
  apply list_lookup_insert_ne. congruence.
Qed.

Lemma set_all_goals_frame self (h : store) l :
  l <> rewards self -> snd (set_all_goals self h) !! l = h !! l.
Proof. intros Hne. apply modify_frame. exact Hne. Qed.

(** [copy] on a valid instance: the outcome and the store it leaves. *)
Lemma copy_run (h : store) m arr :
  0 < rows m -> 0 < cols m -> h !! rewards m = Some arr ->
  exists h1 : store,
    copy m h =
      (Ok {| rows := rows m; cols := cols m;
             num_S := rows m * cols m; num_A := len_Actions;
             rewards := S (S (length h)); state_rewards := S (length h) |},
       h1 ++ [arr])
    /\ length h1 = S (S (length h))
    /\ forall l, (l < length h)%nat -> h1 !! l = h !! l.
Proof.
  intros Hnr Hnc Hl.
  destruct (GridWorldMDP_init_succeeds (rows m) (cols m) ∅ None zero h
              Hnr Hnc) as [h1 Hinit].
  { intros r c v Hv. rewrite lookup_empty in Hv. discriminate Hv. }
  { reflexivity. }
  destruct (GridWorldMDP_init_inversion _ _ _ _ _ _ _ _ Hinit)
    as (_ & _ & _ & _ & _ & Hlen1 & Hold).
  exists h1. split; [|split; assumption].
  unfold copy. rewrite (bindM_Ok _ _ _ _ _ Hinit).
  assert (Hl1 : h1 !! rewards m = Some arr).
  { rewrite Hold; [exact Hl|]. eapply lookup_lt_Some, Hl. }
  rewrite (bindM_Ok _ _ h1 (length h1) (h1 ++ [arr])).
  2:{ unfold np_copy, bindM, load. rewrite Hl1. reflexivity. }
  unfold ret. rewrite Hlen1. reflexivity.
Qed.

(** C9. [copy] of a valid instance succeeds. The copy has the rows and
    cols of the source and a reward table behind a reference different
    from the source's, holding the same shape and cells as the source's
    table, which is itself untouched. From then on, whatever the store has
    become, a write through either instance ([set_goal], [set_all_goals] or
    an assignment to an entry) leaves the other instance's table as it
    was. *)
Theorem copy_is_independent (h : store) (m : GridWorldMDP)
    (h2 : store) (goal_state : option Z) (s a : Z) (v : float) :
  valid_instance h m ->
  exists cp (h' : store),
    copy m h = (Ok cp, h')
    /\ rows cp = rows m /\ cols cp = cols m
    /\ rewards cp <> rewards m
    /\ h' !! rewards cp = h !! rewards m
    /\ h' !! rewards m = h !! rewards m
    /\ rewardTable h' cp s a = rewardTable h m s a
    /\ valid_instance h' cp
    /\ snd (set_goal cp goal_state h2) !! rewards m = h2 !! rewards m
    /\ snd (set_goal m goal_state h2) !! rewards cp = h2 !! rewards cp
    /\ snd (set_all_goals cp h2) !! rewards m = h2 !! rewards m
    /\ snd (set_all_goals m h2) !! rewards cp = h2 !! rewards cp
    /\ snd (np_setitem2 (rewards cp) s a v h2) !! rewards m = h2 !! rewards m
    /\ snd (np_setitem2 (rewards m) s a v h2) !! rewards cp = h2 !! rewards cp.
Proof.
  intros (Hnr & Hnc & HS & HA & arr & Hl & Htbl).
  destruct (copy_run h m arr Hnr Hnc Hl) as (h1 & Hcopy & Hlen1 & Hold).
  pose proof (lookup_lt_Some _ _ _ Hl) as Hlt.
  eexists _, _. split; [exact Hcopy|]. cbn [rows cols rewards].
  assert (Hne : S (S (length h)) <> rewards m) by lia.
  assert (Hcp : (h1 ++ [arr]) !! S (S (length h)) = Some arr)
    by (rewrite <- Hlen1; apply store_lookup_last).
  assert (Hm : (h1 ++ [arr]) !! rewards m = h !! rewards m).
  { rewrite lookup_app_l by lia. apply Hold. exact Hlt. }
  split; [reflexivity|]. split; [reflexivity|]. split; [exact Hne|].
  split; [rewrite Hcp, Hl; reflexivity|]. split; [exact Hm|].
  split.
  { unfold rewardTable, np_getitem2. cbn [rewards].
    rewrite Hcp, Hl. reflexivity. }
  split.
  { unfold valid_instance. cbn [rows cols num_S num_A rewards].
    split; [exact Hnr|]. split; [exact Hnc|].
    split; [reflexivity|]. split; [reflexivity|].
    exists arr. split; [exact Hcp|exact Htbl]. }
  split; [apply set_goal_frame; cbn [rewards]; lia|].
  split; [apply set_goal_frame; cbn [rewards]; lia|].
  split; [apply set_all_goals_frame; cbn [rewards]; lia|].
  split; [apply set_all_goals_frame; cbn [rewards]; lia|].
  split; apply modify_frame; lia.
Qed.

Lemma copy_is_independent_witness :
  exists cp (h' : store),
    copy grid22 store22 = (Ok cp, h')
    /\ rows cp = rows grid22 /\ cols cp = cols grid22
    /\ rewards cp <> rewards grid22
    /\ h' !! rewards cp = store22 !! rewards grid22
    /\ h' !! rewards grid22 = store22 !! rewards grid22
    /\ rewardTable h' cp 3 8 = rewardTable store22 grid22 3 8
    /\ valid_instance h' cp
    /\ snd (set_goal cp None store22) !! rewards grid22
       = store22 !! rewards grid22
    /\ snd (set_goal grid22 None store22) !! rewards cp
       = store22 !! rewards cp
    /\ snd (set_all_goals cp store22) !! rewards grid22
       = store22 !! rewards grid22
    /\ snd (set_all_goals grid22 store22) !! rewards cp
       = store22 !! rewards cp
    /\ snd (np_setitem2 (rewards cp) 3 8 zero store22) !! rewards grid22
       = store22 !! rewards grid22
    /\ snd (np_setitem2 (rewards grid22) 3 8 zero store22) !! rewards cp
       = store22 !! rewards cp.
Proof.
  exact (copy_is_independent store22 grid22 store22 None 3 8 zero
           valid_grid22).
Defined.

(** ** The base constructor *)

Lemma MDP_init_run S A l transition (h : store) arr :
  h !! l = Some arr ->
  MDP_init S A l transition h =
    if isinstance_int S && isinstance_int A
       && shape_eq (shape arr) S A && callable transition
    then (Ok {| mdp_S := S; mdp_A := A; mdp_rewards := l;
                mdp_transition := transition |}, h)
    else (Raise AssertionError, h).
Proof.
  intros Hl. unfold MDP_init, bindM, lift, load. rewrite Hl.
  destruct (isinstance_int S); [|reflexivity].
  destruct (isinstance_int A); [|reflexivity].
  destruct (shape_eq (shape arr) S A); [|reflexivity].
  destruct (callable transition); reflexivity.
Qed.

(** A negative integer equals no dimension of an array. *)
Lemma shape_eq_negative sh S A :
  Forall (fun d => 0 <= d) sh ->
  negative_int S \/ negative_int A ->
  shape_eq sh S A = false.
Proof.
  intros Hsh Hneg. unfold shape_eq.
  destruct sh as [|n [|m [|? ?]]]; try reflexivity.
  apply Forall_cons in Hsh as [Hn Hsh]. apply Forall_cons in Hsh as [Hm _].
  apply andb_false_iff.
  destruct Hneg as [(z & -> & Hz)|(z & -> & Hz)]; [left|right];
    simpl; apply Z.eqb_neq; lia.
Qed.

(** C5, as stated: a state count that is not a positive integer makes
    the constructor fail. A state count of 0 with a reward table of shape
    [(0, 9)] refutes it: only [isinstance(S, int)] is asserted. *)
Lemma zero_states_refute_positivity_check :
  ~ (forall S A l transition (h : store),
       ~ positive_int S \/ ~ positive_int A ->
       exists e, fst (MDP_init S A l transition h) = Raise e).
Proof.
  intros H.
  destruct (H (PyInt 0) (PyInt 9) 0%nat (PyFun (fun _ _ => Ok 0))
              [np_full [0; 9] zero]) as [e He].
  - left. intros (z & [= <-] & Hz). lia.
  - vm_compute in He. discriminate He.
Qed.

(** C5, amended. [MDP.__init__] raises [AssertionError], leaving the
    store as it was, whenever [S] or [A] is not an [int] instance or is a
    negative integer, whenever the shape of [rewards] is not [(S, A)], or
    whenever [transition] is not callable. Positivity is not checked. *)
Theorem MDP_init_rejects (S A : pyval) (l : loc) (transition : pyval)
    (h : store) (arr : ndarray) :
  h !! l = Some arr ->
  wf_ndarray arr ->
  isinstance_int S = false \/ isinstance_int A = false
  \/ negative_int S \/ negative_int A
  \/ shape_eq (shape arr) S A = false
  \/ callable transition = false ->
  MDP_init S A l transition h = (Raise AssertionError, h).
Proof.
  intros Hl [Hsh _] Hbad. rewrite (MDP_init_run _ _ _ _ _ _ Hl).
  replace (isinstance_int S && isinstance_int A
           && shape_eq (shape arr) S A && callable transition)
    with false; [reflexivity|].
  symmetry.
  destruct Hbad as [E|[E|[E|[E|[E|E]]]]].
  - rewrite E. reflexivity.
  - rewrite E, andb_false_r. reflexivity.
  - rewrite (shape_eq_negative _ _ _ Hsh (or_introl E)).
    rewrite andb_false_r. reflexivity.
  - rewrite (shape_eq_negative _ _ _ Hsh (or_intror E)).
    rewrite andb_false_r. reflexivity.
  - rewrite E, andb_false_r. reflexivity.
  - rewrite E, andb_false_r. reflexivity.
Qed.

Lemma MDP_init_rejects_witness :
  MDP_init (PyInt (-1)) (PyInt 9) 0%nat (PyFun (transition grid22)) store22
  = (Raise AssertionError, store22).
Proof.
  apply (MDP_init_rejects (PyInt (-1)) (PyInt 9) 0%nat
           (PyFun (transition grid22)) store22
           (regoaled 4 9 (Some 3) (loop_table (bare 2 2) dict22 zero))).
  - vm_compute. reflexivity.
  - split.
    + rewrite shape_regoaled, shape_loop_table.
      repeat constructor; vm_compute; discriminate.
    + rewrite length_regoaled, length_loop_table, shape_regoaled,
        shape_loop_table.
      reflexivity.
  - right. right. left. exists (-1). split; [reflexivity|lia].
Defined.

(** ** Valid instances *)

Lemma GridWorldMDP_init_valid nr nc reward_dict goal_state default_reward
    (h : store) m (h' : store) :
  GridWorldMDP_init nr nc reward_dict goal_state default_reward h = (Ok m, h') ->
  valid_instance h' m.
Proof.
  intros Hinit.
  destruct (GridWorldMDP_init_inversion _ _ _ _ _ _ _ _ Hinit)
    as (Hnr & Hnc & -> & _ & Hl & _ & _).
  unfold valid_instance. cbn [rows cols num_S num_A rewards constructed].
  split; [exact Hnr|]. split; [exact Hnc|].
  split; [reflexivity|]. split; [reflexivity|].
  eexists. split; [exact Hl|]. split.
  - rewrite shape_regoaled. apply shape_loop_table.
  - rewrite length_regoaled. apply length_loop_table.
Qed.

Lemma set_goal_valid (h : store) m goal_state :
  valid_instance h m -> valid_instance (snd (set_goal m goal_state h)) m.
Proof.
  intros (Hnr & Hnc & HS & HA & arr & Hl & Hsh & Hlen).
  rewrite (set_goal_store _ _ _ _ _ _ Hl Hsh) by reflexivity.
  split; [exact Hnr|]. split; [exact Hnc|].
  split; [exact HS|]. split; [exact HA|].
  eexists. split; [eapply store_insert_eq, Hl|]. split.
  - rewrite shape_regoaled. exact Hsh.
  - rewrite length_regoaled. exact Hlen.
Qed.

Lemma set_all_goals_valid (h : store) m :
  valid_instance h m -> valid_instance (snd (set_all_goals m h)) m.
Proof.
  intros (Hnr & Hnc & HS & HA & arr & Hl & Hsh & Hlen).
  unfold set_all_goals, np_fill_column. rewrite (modify_run _ _ _ _ Hl).
  rewrite (fill_column_in_range _ _ _ _ _ Hsh)
    by (change (value ABSORB) with 8; change len_Actions with 9; lia).
  cbn [snd].
  split; [exact Hnr|]. split; [exact Hnc|].
  split; [exact HS|]. split; [exact HA|].
  eexists. split; [eapply store_insert_eq, Hl|]. split.
  - rewrite shape_filled. exact Hsh.
  - rewrite length_filled. exact Hlen.
Qed.

(** ** The 2x2 scenario *)

(** Overrides [{(1,1): 10}], goal state 3, default reward 0. *)
Example scenario_2x2 :
  rewardTable store22 grid22 0 (value RIGHT) = Ok zero
  /\ rewardTable store22 grid22 0 (value UP) = Ok neg_infinity
  /\ rewardTable store22 grid22 0 (value DOWN_RIGHT) = Ok ten
  /\ rewardTable store22 grid22 3 (value RIGHT) = Ok neg_infinity
  /\ rewardTable store22 grid22 1 (value DOWN_RIGHT) = Ok neg_infinity
  /\ rewardTable store22 grid22 3 (value ABSORB) = Ok zero
  /\ rewardTable store22 grid22 0 (value ABSORB) = Ok neg_infinity
  /\ store22 !! state_rewards grid22
     = Some {| shape := [4]; data := [zero; zero; zero; ten] |}.
Proof. vm_compute. repeat split. Qed.

(** ** More on goal reconfiguration *)

(** Filling a column forgets what the column held: two arrays that agree
    outside it are filled to the same array. *)
Lemma filled_ext n m j v arr1 arr2 :
  0 <= j < m ->
  shape arr2 = shape arr1 ->
  length (data arr2) = length (data arr1) ->
  (forall k, k ∉ (fun i => Z.to_nat (i * m + j)) <$> seqZ 0 n ->
     data arr2 !! k = data arr1 !! k) ->
  filled n m j v arr2 = filled n m j v arr1.
Proof.
  intros Hj Hsh Hlen Hother.
  apply ndarray_eq; [rewrite !shape_filled; exact Hsh|].
  intros k.
  destruct (decide (k ∈ (fun i => Z.to_nat (i * m + j)) <$> seqZ 0 n))
    as [Hin|Hout].
  - apply column_positions in Hin as (i & Hi & ->).
    destruct (decide (Z.to_nat (i * m + j) < length (data arr1))%nat)
      as [Hlt|Hge].
    + rewrite !read_filled_column by (try assumption; rewrite ?Hlen; exact Hlt).
      reflexivity.
    + rewrite !lookup_ge_None_2; [reflexivity| |];
        rewrite length_filled; rewrite ?Hlen; lia.
  - unfold filled. rewrite !read_foldl_writes_other by exact Hout.
    apply Hother. exact Hout.
Qed.

Lemma filled_overwrites n m j v v' arr :
  0 <= j < m ->
  filled n m j v (filled n m j v' arr) = filled n m j v arr.
Proof.
  intros Hj. apply filled_ext; [exact Hj|apply shape_filled|apply length_filled|].
  intros k Hk. unfold filled. apply read_foldl_writes_other. exact Hk.
Qed.

Lemma read_regoaled_outside n m goal_state arr k :
  k ∉ (fun i => Z.to_nat (i * m + 8)) <$> seqZ 0 n ->
  data (regoaled n m goal_state arr) !! k = data arr !! k.
Proof.
  intros Hk.
  assert (Hfilled : data (filled n m 8 neg_infinity arr) !! k = data arr !! k)
    by (unfold filled; apply read_foldl_writes_other; exact Hk).
  unfold regoaled. destruct goal_state as [g|]; [|exact Hfilled].
  destruct (norm_index n g) as [i|] eqn:E; [|exact Hfilled].
  apply norm_index_Ok in E. simpl.
  rewrite list_lookup_insert_ne; [exact Hfilled|].
  intros <-. apply Hk. apply column_positions. exists i. split; [exact E|reflexivity].
Qed.

Lemma set_all_goals_run self (h : store) arr n m :
  h !! rewards self = Some arr -> shape arr = [n; m] -> 8 < m ->
  set_all_goals self h = (Ok tt, <[rewards self := filled n m 8 zero arr]> h).
Proof.
  intros Hl Hsh Hm. unfold set_all_goals, np_fill_column.
  rewrite (modify_run _ _ _ _ Hl). change (value ABSORB) with 8.
  rewrite (fill_column_in_range arr n m) by (try assumption; lia).
  reflexivity.
Qed.

(** Either the reference of an instance holds a table with an ABSORB
    column, or both reconfigurations raise and leave the store alone. *)
Lemma table_or_raise self (h : store) :
  (exists e, (forall goal_state, set_goal self goal_state h = (Raise e, h))
             /\ set_all_goals self h = (Raise e, h))
  \/ exists arr n m, h !! rewards self = Some arr /\ shape arr = [n; m] /\ 8 < m.
Proof.
  destruct (h !! rewards self) as [arr|] eqn:Hl.
  - destruct (fill_column_ABSORB_cases arr) as [(n & m & Hsh & Hm)|[e He]].
    + right. exists arr, n, m. repeat split; assumption.
    + left. exists e. split.
      * intros g. apply (set_goal_no_table _ _ _ _ _ Hl (He _)).
      * unfold set_all_goals, np_fill_column.
        rewrite (modify_run _ _ _ _ Hl), He. reflexivity.
  - left. exists DanglingReference. split.
    + intros g. apply set_goal_dangling. exact Hl.
    + apply modify_dangling. exact Hl.
Qed.

(** A reconfiguration does not see what the ABSORB column held. *)
Lemma set_goal_forgets self goal_state (h : store) arr arr' n m :
  h !! rewards self = Some arr -> shape arr = [n; m] -> 8 < m ->
  shape arr' = [n; m] ->
  filled n m 8 neg_infinity arr' = filled n m 8 neg_infinity arr ->
  set_goal self goal_state (<[rewards self := arr']> h)
  = set_goal self goal_state h.
Proof.
  intros Hl Hsh Hm Hsh' Hfill.
  rewrite (set_goal_run _ _ _ arr' n m) by
    (try assumption; eapply store_insert_eq, Hl).
  rewrite (set_goal_run _ _ _ arr n m) by assumption.
  cbv zeta. rewrite Hfill.
  destruct goal_state as [g|].
  - destruct (norm_index n g); f_equal; apply list_insert_insert_eq.
  - f_equal. apply list_insert_insert_eq.
Qed.

Lemma set_all_goals_forgets self (h : store) arr arr' n m :
  h !! rewards self = Some arr -> shape arr = [n; m] -> 8 < m ->
  shape arr' = [n; m] ->
  filled n m 8 zero arr' = filled n m 8 zero arr ->
  set_all_goals self (<[rewards self := arr']> h) = set_all_goals self h.
Proof.
  intros Hl Hsh Hm Hsh' Hfill.
  rewrite (set_all_goals_run _ _ arr' n m) by
    (try assumption; eapply store_insert_eq, Hl).
  rewrite (set_all_goals_run _ _ arr n m) by assumption.
  rewrite Hfill. f_equal. apply list_insert_insert_eq.
Qed.

(** X2. The last reconfiguration wins: [set_goal] or [set_all_goals]
    issued after an earlier [set_goal] or [set_all_goals] gives the
    outcome and the store it gives when issued alone. This holds for any
    instance and store, also when the earlier call raised. *)
Theorem last_reconfiguration_wins (self : GridWorldMDP)
    (g g' : option Z) (h : store) :
  set_goal self g' (snd (set_goal self g h)) = set_goal self g' h
  /\ set_goal self g' (snd (set_all_goals self h)) = set_goal self g' h
  /\ set_all_goals self (snd (set_goal self g h)) = set_all_goals self h
  /\ set_all_goals self (snd (set_all_goals self h)) = set_all_goals self h.
Proof.
  destruct (table_or_raise self h)
    as [(e & Hg & Ha)|(arr & n & m & Hl & Hsh & Hm)].
  { rewrite (Hg g), Ha. cbn [snd]. rewrite ?(Hg g'), ?Ha.
    repeat split; reflexivity. }
  rewrite (set_goal_store _ _ _ _ _ _ Hl Hsh Hm).
  assert (Hall : snd (set_all_goals self h)
                 = <[rewards self := filled n m 8 zero arr]> h)
    by (rewrite (set_all_goals_run _ _ _ _ _ Hl Hsh Hm); reflexivity).
  rewrite Hall.
  split; [|split; [|split]].
  - apply (set_goal_forgets _ _ _ arr _ n m); try assumption.
    + rewrite shape_regoaled. exact Hsh.
    + apply filled_regoaled. exact Hm.
  - apply (set_goal_forgets _ _ _ arr _ n m); try assumption.
    + rewrite shape_filled. exact Hsh.
    + apply filled_overwrites. lia.
  - apply (set_all_goals_forgets _ _ arr _ n m); try assumption.
    + rewrite shape_regoaled. exact Hsh.
    + apply filled_ext; [lia|apply shape_regoaled|apply length_regoaled|].
      intros k Hk. apply read_regoaled_outside. exact Hk.
  - apply (set_all_goals_forgets _ _ arr _ n m); try assumption.
    + rewrite shape_filled. exact Hsh.
    + apply filled_filled. lia.
Qed.

Lemma set_goal_other_columns self goal_state (h : store) s a :
  0 <= a < 9 -> a <> value ABSORB ->
  rewardTable (snd (set_goal self goal_state h)) self s a
  = rewardTable h self s a.
Proof.
  intros Ha Hne.
  destruct (table_or_raise self h)
    as [(e & Hg & _)|(arr & n & m & Hl & Hsh & Hm)].
  { rewrite Hg. reflexivity. }
  rewrite (set_goal_store _ _ _ _ _ _ Hl Hsh Hm).
  erewrite rewardTable_at by (eapply store_insert_eq, Hl).
  rewrite (rewardTable_at _ _ _ _ _ Hl).
  unfold getitem2. rewrite shape_regoaled, Hsh.
  destruct (norm_index n s) as [i|e] eqn:Ei; [|reflexivity].
  apply norm_index_Ok in Ei. cbn [bindR].
  rewrite norm_index_in_range by lia. cbn [bindR].
  unfold read_cell.
  rewrite read_regoaled_other by (try assumption; lia). reflexivity.
Qed.

Lemma set_all_goals_other_columns self (h : store) s a :
  0 <= a < 9 -> a <> value ABSORB ->
  rewardTable (snd (set_all_goals self h)) self s a = rewardTable h self s a.
Proof.
  intros Ha Hne.
  destruct (table_or_raise self h)
    as [(e & _ & Hg)|(arr & n & m & Hl & Hsh & Hm)].
  { rewrite Hg. reflexivity. }
  rewrite (set_all_goals_run _ _ _ _ _ Hl Hsh Hm). cbn [snd].
  erewrite rewardTable_at by (eapply store_insert_eq, Hl).
  rewrite (rewardTable_at _ _ _ _ _ Hl).
  unfold getitem2. rewrite shape_filled, Hsh.
  destruct (norm_index n s) as [i|e] eqn:Ei; [|reflexivity].
  apply norm_index_Ok in Ei. cbn [bindR].
  rewrite norm_index_in_range by lia. cbn [bindR].
  unfold read_cell.
  rewrite read_filled_other by (try assumption; lia). reflexivity.
Qed.

(** X1. On a valid instance [set_all_goals] succeeds and leaves 0 in the
    ABSORB entry of every state; the entries of the other columns and the
    other arrays of the store are as before. *)
Theorem set_all_goals_ABSORB_column (h : store) (m : GridWorldMDP)
    (s a : Z) (l : loc) :
  valid_instance h m ->
  0 <= s < rows m * cols m ->
  0 <= a < 9 -> a <> value ABSORB -> l <> rewards m ->
  fst (set_all_goals m h) = Ok tt
  /\ rewardTable (snd (set_all_goals m h)) m s (value ABSORB) = Ok zero
  /\ rewardTable (snd (set_all_goals m h)) m s a = rewardTable h m s a
  /\ snd (set_all_goals m h) !! l = h !! l.
Proof.
  intros Hv Hs Ha Hne Hl'.
  destruct (valid_instance_table h m Hv) as (arr & Hl & Hsh & Hlen).
  split; [|split; [|split]].
  - rewrite (set_all_goals_run _ _ _ _ _ Hl Hsh) by lia. reflexivity.
  - rewrite (set_all_goals_run _ _ _ _ _ Hl Hsh) by lia. cbn [snd].
    erewrite rewardTable_at by (eapply store_insert_eq, Hl).
    rewrite (getitem2_in_range _ (rows m * cols m) 9)
      by (rewrite ?shape_filled; (assumption || (simpl; lia))).
    apply read_cell_Some. change (value ABSORB) with 8.
    apply read_filled_column; [lia|exact Hs|].
    rewrite Hlen. apply flat_index_lt; lia.
  - apply set_all_goals_other_columns; assumption.
  - apply set_all_goals_frame. exact Hl'.
Qed.

Lemma set_all_goals_ABSORB_column_witness :
  fst (set_all_goals grid22 store22) = Ok tt
  /\ rewardTable (snd (set_all_goals grid22 store22)) grid22 0 (value ABSORB)
     = Ok zero
  /\ rewardTable (snd (set_all_goals grid22 store22)) grid22 0 7
     = rewardTable store22 grid22 0 7
  /\ snd (set_all_goals grid22 store22) !! 1%nat = store22 !! 1%nat.
Proof.
  apply (set_all_goals_ABSORB_column store22 grid22 0 7 1%nat);
    [exact valid_grid22 | simpl; lia..].
Defined.

Lemma norm_index_out_of_range n i :
  i < - n \/ n <= i -> norm_index n i = Raise IndexError.
Proof.
  intros H. unfold norm_index.
  replace ((0 <=? i) && (i <? n)) with false.
  - replace ((- n <=? i) && (i <? 0)) with false; [reflexivity|].
    symmetry. apply andb_false_iff.
    rewrite Z.leb_gt, Z.ltb_ge. lia.
  - symmetry. apply andb_false_iff. rewrite Z.leb_gt, Z.ltb_ge. lia.
Qed.

(** X3. On a valid instance [set_goal g] with [g] outside
    [[-rows*cols, rows*cols)] raises [IndexError], but only after the
    ABSORB column was filled: the previous goal is gone and the ABSORB
    entry of every state is negative infinity. *)
Theorem set_goal_out_of_range_clears_goal (h : store) (m : GridWorldMDP)
    (g s : Z) :
  valid_instance h m ->
  g < - (rows m * cols m) \/ rows m * cols m <= g ->
  0 <= s < rows m * cols m ->
  fst (set_goal m (Some g) h) = Raise IndexError
  /\ rewardTable (snd (set_goal m (Some g) h)) m s (value ABSORB)
     = Ok neg_infinity.
Proof.
  intros Hv Hg Hs. split.
  - destruct (valid_instance_table h m Hv) as (arr & Hl & Hsh & Hlen).
    rewrite (set_goal_run _ _ _ _ _ _ Hl Hsh) by lia. cbv zeta.
    rewrite norm_index_out_of_range by exact Hg. reflexivity.
  - rewrite rewardTable_after_set_goal by assumption.
    unfold accepted_goal. rewrite norm_index_out_of_range by exact Hg.
    rewrite decide_False; [reflexivity|discriminate].
Qed.

Lemma set_goal_out_of_range_clears_goal_witness :
  fst (set_goal grid22 (Some 4) store22) = Raise IndexError
  /\ rewardTable (snd (set_goal grid22 (Some 4) store22)) grid22 3
       (value ABSORB) = Ok neg_infinity.
Proof.
  apply (set_goal_out_of_range_clears_goal store22 grid22 4 3);
    [exact valid_grid22 | simpl; lia..].
Defined.

(** ** The outcome of construction *)

Lemma in_grid_false_bounds nr nc r c :
  in_grid nr nc r c = false -> r < 0 \/ nr <= r \/ c < 0 \/ nc <= c.
Proof.
  intros E. apply not_true_iff_false in E. rewrite in_grid_true in E. lia.
Qed.

Lemma state_rewards_loop nr nc k sr xs :
  0 < nr -> 0 < nc ->
  forall (h : store) arr,
    h !! sr = Some arr -> shape arr = [nr * nc] ->
    (Forall (fun item : Z * Z * float =>
               in_grid nr nc item.1.1 item.1.2 = true) xs
     /\ for_ xs (fill_state_reward (constructed nr nc k) sr) h
        = (Ok tt, <[sr := foldl (state_reward_step nc) arr xs]> h))
    \/ (Exists (fun item : Z * Z * float =>
                  in_grid nr nc item.1.1 item.1.2 = false) xs
        /\ exists h1 : store,
             for_ xs (fill_state_reward (constructed nr nc k) sr) h
             = (Raise AssertionError, h1)).
Proof.
  intros Hnr Hnc. induction xs as [|[[r c] v] xs IH]; intros h arr Hl Hsh.
  - left. split; [constructor|].
    simpl. unfold ret. f_equal. symmetry. apply list_insert_id. exact Hl.
  - destruct (in_grid nr nc r c) eqn:E.
    + pose proof E as Hin. apply in_grid_true in Hin as [Hr Hc].
      pose proof (fill_state_reward_run nr nc k sr h arr r c v Hr Hc Hl Hsh)
        as Hrun.
      destruct (IH (<[sr := write_cell arr (r * nc + c) v]> h)
                  (write_cell arr (r * nc + c) v))
        as [[Hall Hfor]|[Hex [h1 Hfor]]];
        [eapply store_insert_eq, Hl|exact Hsh| |].
      * left. split; [constructor; [exact E|exact Hall]|].
        cbn [for_]. rewrite (bindM_Ok _ _ _ _ _ Hrun), Hfor.
        f_equal. apply list_insert_insert_eq.
      * right. split; [apply Exists_cons_tl; exact Hex|].
        exists h1. cbn [for_]. rewrite (bindM_Ok _ _ _ _ _ Hrun). exact Hfor.
    + right. split; [apply Exists_cons_hd; exact E|].
      exists h. cbn [for_]. apply bindM_Raise.
      unfold fill_state_reward, bindM, lift.
      rewrite coor_to_state_out_of_range; [reflexivity|].
      apply in_grid_false_bounds in E. exact E.
Qed.

Lemma keys_in_grid_Forall (nr nc : Z) (reward_dict : gmap (Z * Z) float) :
  keys_in_grid nr nc reward_dict <->
  Forall (fun item : Z * Z * float => in_grid nr nc item.1.1 item.1.2 = true)
    (map_to_list reward_dict).
Proof.
  rewrite Forall_forall. split.
  - intros Hk [[r c] v] Hin. apply elem_of_map_to_list in Hin.
    apply in_grid_true. eapply Hk, Hin.
  - intros Hall r c v Hv. apply in_grid_true.
    apply (Hall ((r, c), v)). apply elem_of_map_to_list. exact Hv.
Qed.

(** [__init__] with positive dimensions: either every override is in the
    grid and all that is left to run is [set_goal], on a store that holds
    the two finished arrays, or some override is outside the grid and the
    loop over the overrides raises. *)
Lemma GridWorldMDP_init_outcome nr nc reward_dict goal_state default_reward
    (h : store) :
  0 < nr -> 0 < nc ->
  (keys_in_grid nr nc reward_dict
   /\ exists h3 : store,
        h3 !! length h = Some (loop_table (bare nr nc) reward_dict default_reward)
        /\ h3 !! S (length h)
           = Some (state_rewards_built nr nc reward_dict default_reward)
        /\ length h3 = S (S (length h))
        /\ (forall l, (l < length h)%nat -> h3 !! l = h !! l)
        /\ GridWorldMDP_init nr nc reward_dict goal_state default_reward h
           = bindM (set_goal (constructed nr nc (length h)) goal_state)
               (fun _ => ret (constructed nr nc (length h))) h3)
  \/ ((exists r c v, reward_dict !! (r, c) = Some v
                     /\ in_grid nr nc r c = false)
      /\ exists h1 : store,
           GridWorldMDP_init nr nc reward_dict goal_state default_reward h
           = (Raise AssertionError, h1)).
Proof.
  intros Hnr Hnc.
  rewrite GridWorldMDP_init_run by assumption. cbv zeta.
  set (tbl := loop_table (bare nr nc) reward_dict default_reward).
  set (sr0 := np_full [nr * nc] default_reward).
  set (h2 := (h ++ [tbl]) ++ [sr0]).
  assert (Hsr : h2 !! S (length h) = Some sr0).
  { apply list_lookup_middle. rewrite length_app. simpl. lia. }
  destruct (state_rewards_loop nr nc (length h) (S (length h))
              (map_to_list reward_dict) Hnr Hnc h2 sr0 Hsr eq_refl)
    as [[Hall Hfor]|[Hex [h1 Hfor]]].
  - left. split; [apply keys_in_grid_Forall; exact Hall|].
    eexists. split; [|split; [|split; [|split]]];
      [| | | |rewrite (bindM_Ok _ _ _ _ _ Hfor); reflexivity].
    + rewrite list_lookup_insert_ne by lia. unfold h2.
      rewrite lookup_app_l by (rewrite length_app; simpl; lia).
      apply store_lookup_last.
    + eapply store_insert_eq, Hsr.
    + rewrite length_insert. unfold h2. rewrite !length_app. simpl. lia.
    + intros l Hl. rewrite list_lookup_insert_ne by lia. unfold h2.
      rewrite lookup_app_l by (rewrite length_app; simpl; lia).
      apply lookup_app_l. exact Hl.
  - right. split.
    + apply Exists_exists in Hex as ([[r c] v] & Hin & E).
      apply elem_of_map_to_list in Hin. exists r, c, v. split; assumption.
    + exists h1. apply bindM_Raise. exact Hfor.
Qed.

(** What a successful construction says about the overrides and leaves in
    [state_rewards]. *)
Lemma GridWorldMDP_init_state_rewards nr nc reward_dict goal_state
    default_reward (h : store) m (h' : store) :
  GridWorldMDP_init nr nc reward_dict goal_state default_reward h = (Ok m, h') ->
  keys_in_grid nr nc reward_dict
  /\ h' !! S (length h)
     = Some (state_rewards_built nr nc reward_dict default_reward).
Proof.
  intros Hinit.
  destruct (GridWorldMDP_init_inversion _ _ _ _ _ _ _ _ Hinit)
    as (Hnr & Hnc & _).
  destruct (GridWorldMDP_init_outcome nr nc reward_dict goal_state
              default_reward h Hnr Hnc)
    as [(Hkeys & h3 & Htbl & Hsr & Hlen & Hold & Hrun)|(_ & h1 & Hrun)];
    rewrite Hrun in Hinit; [|discriminate].
  split; [exact Hkeys|].
  unfold bindM in Hinit.
  pose proof (set_goal_frame (constructed nr nc (length h)) goal_state h3
                (S (length h))) as Hframe.
  destruct (set_goal (constructed nr nc (length h)) goal_state h3)
    as [[[]|e] h4]; [|discriminate].
  unfold ret in Hinit. injection Hinit as _ <-.
  cbn [snd rewards constructed] in Hframe. rewrite Hframe by lia. exact Hsr.
Qed.

Lemma shape_state_rewards_built nr nc reward_dict default_reward :
  shape (state_rewards_built nr nc reward_dict default_reward) = [nr * nc].
Proof.
  unfold state_rewards_built.
  change (foldl (state_reward_step nc))
    with (foldl (write_opt (fun item : Z * Z * float => item.1.1 * nc + item.1.2)
                   (fun item => Some item.2))).
  rewrite shape_foldl_writes. reflexivity.
Qed.

Lemma read_state_rewards_built nr nc reward_dict default_reward s :
  0 < nr -> 0 < nc -> keys_in_grid nr nc reward_dict ->
  0 <= s < nr * nc ->
  data (state_rewards_built nr nc reward_dict default_reward) !! Z.to_nat s
  = Some (reward_at reward_dict default_reward (s / nc, s mod nc)).
Proof.
  intros Hnr Hnc Hkeys Hs.
  set (pos := fun item : Z * Z * float => item.1.1 * nc + item.1.2).
  set (w := fun item : Z * Z * float => Some item.2).
  unfold state_rewards_built.
  change (foldl (state_reward_step nc)) with (foldl (write_opt pos w)).
  assert (Hlen : length (data (np_full [nr * nc] default_reward))
                 = Z.to_nat (nr * nc)).
  { simpl. rewrite length_replicate. f_equal. unfold numel. simpl. lia. }
  assert (Hdefault : data (np_full [nr * nc] default_reward) !! Z.to_nat s
                     = Some default_reward).
  { simpl. apply lookup_replicate_2.
    replace (numel [nr * nc]) with (nr * nc) by (unfold numel; simpl; lia).
    apply Z2Nat.inj_lt; lia. }
  assert (Hencode : s / nc * nc + s mod nc = s).
  { rewrite (Z.div_mod s nc) at 3 by lia. lia. }
  assert (Hnodup : NoDup ((fun x => Z.to_nat (pos x))
                            <$> map_to_list reward_dict)).
  { apply NoDup_fmap_2_strong; [|apply NoDup_map_to_list].
    intros [[r c] v] [[r' c'] v'] Hx Hy E.
    apply elem_of_map_to_list in Hx. apply elem_of_map_to_list in Hy.
    destruct (Hkeys _ _ _ Hx) as [Hr Hc].
    destruct (Hkeys _ _ _ Hy) as [Hr' Hc'].
    unfold pos in E. simpl in E.
    apply flat_index_inj in E as [-> ->]; [|lia..].
    rewrite Hx in Hy. injection Hy as ->. reflexivity. }
  unfold reward_at.
  destruct (reward_dict !! (s / nc, s mod nc)) as [v|] eqn:Ev.
  - pose proof (read_foldl_writes_at pos w (map_to_list reward_dict)
                  (np_full [nr * nc] default_reward)
                  ((s / nc, s mod nc), v) Hnodup) as Hread.
    unfold pos in Hread. cbn [fst snd] in Hread.
    rewrite !Hencode in Hread. apply Hread.
    + apply elem_of_map_to_list. exact Ev.
    + rewrite Hlen. apply Z2Nat.inj_lt; lia.
  - rewrite read_foldl_writes_other; [exact Hdefault|].
    intros Hin. apply list_elem_of_fmap in Hin as ([[r c] v] & E & Hx).
    apply elem_of_map_to_list in Hx.
    destruct (Hkeys _ _ _ Hx) as [Hr Hc].
    unfold pos in E. simpl in E.
    assert (0 <= r * nc) by (apply Z.mul_nonneg_nonneg; lia).
    apply Z2Nat.inj in E; [|lia|lia].
    assert (s / nc = r /\ s mod nc = c) as [Er Ec].
    { subst s. split.
      - rewrite Z.div_add_l by lia. rewrite Z.div_small by lia. lia.
      - rewrite Z.add_comm, Z.mod_add by lia. apply Z.mod_small; lia. }
    rewrite Er, Ec, Hx in Ev. discriminate Ev.
Qed.

Lemma stateRewards_constructed nr nc reward_dict goal_state default_reward
    (h : store) m (h' : store) s :
  GridWorldMDP_init nr nc reward_dict goal_state default_reward h = (Ok m, h') ->
  0 <= s < nr * nc ->
  stateRewards h' m s
  = Ok (reward_at reward_dict default_reward (s / nc, s mod nc)).
Proof.
  intros Hinit Hs.
  destruct (GridWorldMDP_init_state_rewards _ _ _ _ _ _ _ _ Hinit)
    as [Hkeys Hsr].
  destruct (GridWorldMDP_init_inversion _ _ _ _ _ _ _ _ Hinit)
    as (Hnr & Hnc & -> & _).
  unfold stateRewards, np_getitem1. cbn [state_rewards constructed].
  rewrite Hsr. cbn [fst]. unfold getitem1.
  rewrite shape_state_rewards_built.
  rewrite norm_index_in_range by exact Hs. cbn [bindR].
  apply read_cell_Some. apply read_state_rewards_built; assumption.
Qed.

(** X4. After a successful construction, [state_rewards[s]] is the
    override of the coordinate of [s] when there is one and the default
    reward otherwise, for every state of the grid. *)
Theorem state_rewards_after_construction
    (nr nc : Z) (reward_dict : gmap (Z * Z) float) (goal_state : option Z)
    (default_reward : float) (h : store) (m : GridWorldMDP) (h' : store)
    (s : Z) :
  GridWorldMDP_init nr nc reward_dict goal_state default_reward h = (Ok m, h') ->
  0 <= s < nr * nc ->
  stateRewards h' m s
  = Ok (reward_at reward_dict default_reward (s / nc, s mod nc)).
Proof.
  intros Hinit Hs. eapply stateRewards_constructed; eassumption.
Qed.

Lemma state_rewards_after_construction_witness :
  stateRewards store22 grid22 3
  = Ok (reward_at dict22 zero (3 / 2, 3 mod 2)).
Proof.
  apply (state_rewards_after_construction 2 2 dict22 (Some 3) zero []
           grid22 store22 3).
  - vm_compute. reflexivity.
  - lia.
Defined.

(** X5. After a successful construction, the table entry of a legal move
    other than ABSORB is the [state_rewards] entry of the state the move
    lands on. *)
Theorem legal_move_pays_state_reward
    (nr nc : Z) (reward_dict : gmap (Z * Z) float) (goal_state : option Z)
    (default_reward : float) (h : store) (m : GridWorldMDP) (h' : store)
    (s : Z) (act : Actions) (s_prime : Z) :
  GridWorldMDP_init nr nc reward_dict goal_state default_reward h = (Ok m, h') ->
  0 <= s < nr * nc ->
  act <> ABSORB ->
  _transition m s (value act) true = Ok (WithFlag s_prime false) ->
  rewardTable h' m s (value act) = stateRewards h' m s_prime.
Proof.
  intros Hinit Hs Hact Hmove.
  pose proof (rewardTable_constructed _ _ _ _ _ _ _ _ s act Hinit Hs) as Hread.
  rewrite Hread.
  destruct (GridWorldMDP_init_inversion _ _ _ _ _ _ _ _ Hinit)
    as (Hnr & Hnc & Em & _).
  assert (Hland : landing nr nc s act = (s_prime, false)).
  { subst m.
    rewrite (_transition_landing (constructed nr nc (length h))) in Hmove
      by assumption.
    cbn [rows cols constructed] in Hmove.
    destruct (landing nr nc s act) as [s1 ill].
    injection Hmove as -> ->. reflexivity. }
  pose proof (landing_in_range nr nc s act Hnr Hnc Hs) as Hrange.
  rewrite Hland in Hrange. cbn [fst] in Hrange.
  rewrite (stateRewards_constructed _ _ _ _ _ _ _ _ s_prime Hinit Hrange).
  f_equal. unfold landing in Hland. unfold table_entry, reward_at.
  destruct (shifted nc s act) as [r c].
  destruct (in_grid nr nc r c) eqn:E; [|discriminate Hland].
  injection Hland as <-. apply in_grid_true in E as [Hr Hc].
  destruct (decode_encode (bare nr nc) Hnr Hnc r c Hc) as [E1 E2].
  cbn [cols bare] in E1, E2. rewrite E1, E2.
  destruct act; try reflexivity. contradiction.
Qed.

Lemma legal_move_pays_state_reward_witness :
  rewardTable store22 grid22 0 (value DOWN_RIGHT) = stateRewards store22 grid22 3.
Proof.
  apply (legal_move_pays_state_reward 2 2 dict22 (Some 3) zero [] grid22
           store22 0 DOWN_RIGHT 3).
  - vm_compute. reflexivity.
  - lia.
  - discriminate.
  - vm_compute. reflexivity.
Defined.

Lemma goal_in_range_accepted n goal_state :
  goal_in_range n goal_state <->
  accepted_goal n goal_state = goal_index n goal_state.
Proof.
  unfold goal_in_range, accepted_goal, goal_index.
  destruct goal_state as [g|]; [|split; reflexivity || (intros _; exact I)].
  split.
  - intros Hg. destruct (Z.ltb_spec g 0).
    + rewrite norm_index_negative by lia. reflexivity.
    + rewrite norm_index_in_range by lia. reflexivity.
  - destruct (norm_index n g) as [i|] eqn:E; [|discriminate].
    intros _. unfold norm_index in E.
    destruct ((0 <=? g) && (g <? n)) eqn:E1.
    + apply andb_true_iff in E1 as [?%Z.leb_le ?%Z.ltb_lt]. lia.
    + destruct ((- n <=? g) && (g <? 0)) eqn:E2; [|discriminate].
      apply andb_true_iff in E2 as [?%Z.leb_le ?%Z.ltb_lt]. lia.
Qed.

(** X6. For a float [default_reward] and float overrides, [__init__]
    returns an instance exactly when both dimensions are positive, every
    override lies inside the grid, and the goal is [None] or an index in
    [[-rows*cols, rows*cols)]. *)
Theorem construction_succeeds_iff
    (nr nc : Z) (reward_dict : gmap (Z * Z) float) (goal_state : option Z)
    (default_reward : float) (h : store) :
  (exists m (h' : store),
     GridWorldMDP_init nr nc reward_dict goal_state default_reward h
     = (Ok m, h'))
  <-> 0 < nr /\ 0 < nc /\ keys_in_grid nr nc reward_dict
      /\ goal_in_range (nr * nc) goal_state.
Proof.
  split.
  - intros (m & h' & Hinit).
    destruct (GridWorldMDP_init_inversion _ _ _ _ _ _ _ _ Hinit)
      as (Hnr & Hnc & _ & Hgoal & _).
    destruct (GridWorldMDP_init_state_rewards _ _ _ _ _ _ _ _ Hinit)
      as [Hkeys _].
    split; [exact Hnr|]. split; [exact Hnc|]. split; [exact Hkeys|].
    apply goal_in_range_accepted. exact Hgoal.
  - intros (Hnr & Hnc & Hkeys & Hgoal).
    apply goal_in_range_accepted in Hgoal.
    destruct (GridWorldMDP_init_succeeds nr nc reward_dict goal_state
                default_reward h Hnr Hnc Hkeys Hgoal) as [h' Hinit].
    eexists _, _. exact Hinit.
Qed.

(** X7. With positive dimensions, an override whose coordinate is outside
    the grid makes [__init__] raise [AssertionError], although the reward
    table never looks that coordinate up. *)
Theorem override_outside_grid_fails
    (nr nc : Z) (reward_dict : gmap (Z * Z) float) (goal_state : option Z)
    (default_reward : float) (h : store) (r c : Z) (v : float) :
  0 < nr -> 0 < nc ->
  reward_dict !! (r, c) = Some v ->
  r < 0 \/ nr <= r \/ c < 0 \/ nc <= c ->
  fst (GridWorldMDP_init nr nc reward_dict goal_state default_reward h)
  = Raise AssertionError.
Proof.
  intros Hnr Hnc Hv Hout.
  destruct (GridWorldMDP_init_outcome nr nc reward_dict goal_state
              default_reward h Hnr Hnc)
    as [(Hkeys & _)|(_ & h1 & ->)]; [|reflexivity].
  apply Hkeys in Hv. lia.
Qed.

Lemma override_outside_grid_fails_witness :
  fst (GridWorldMDP_init 2 2 {[ (2, 0) := ten ]} None zero [])
  = Raise AssertionError.
Proof.
  apply (override_outside_grid_fails 2 2 {[ (2, 0) := ten ]} None zero []
           2 0 ten); try lia.
  vm_compute. reflexivity.
Defined.

(** X8. With positive dimensions and every override inside the grid, a
    goal index outside [[-rows*cols, rows*cols)] makes [__init__] raise
    [IndexError]. *)
Theorem goal_outside_table_fails
    (nr nc : Z) (reward_dict : gmap (Z * Z) float) (g : Z)
    (default_reward : float) (h : store) :
  0 < nr -> 0 < nc ->
  keys_in_grid nr nc reward_dict ->
  g < - (nr * nc) \/ nr * nc <= g ->
  fst (GridWorldMDP_init nr nc reward_dict (Some g) default_reward h)
  = Raise IndexError.
Proof.
  intros Hnr Hnc Hkeys Hg.
  destruct (GridWorldMDP_init_outcome nr nc reward_dict (Some g)
              default_reward h Hnr Hnc)
    as [(_ & h3 & Htbl & _ & _ & _ & ->)|((r & c & v & Hv & E) & _)].
  - unfold bindM.
    rewrite (set_goal_run (constructed nr nc (length h)) (Some g) h3 _
               (nr * nc) len_Actions Htbl);
      [|apply shape_loop_table|reflexivity].
    cbv zeta. rewrite norm_index_out_of_range by exact Hg. reflexivity.
  - apply Hkeys in Hv. apply in_grid_false_bounds in E. lia.
Qed.

Lemma goal_outside_table_fails_witness :
  fst (GridWorldMDP_init 2 2 dict22 (Some 4) zero []) = Raise IndexError.
Proof.
  apply (goal_outside_table_fails 2 2 dict22 4 zero []); try lia.
  intros r c v Hv. unfold dict22 in Hv.
  apply lookup_singleton_Some in Hv as [[= <- <-] _]. lia.
Defined.

(** ** Instances side by side *)

(** X9. Constructing an instance in a store that already holds a valid
    instance allocates two new arrays and touches nothing else: the two
    reward tables are behind different references, the old instance is
    still valid and reads the same entries, and the new one is valid. *)
Theorem construction_leaves_instances_alone
    (nr nc : Z) (reward_dict : gmap (Z * Z) float) (goal_state : option Z)
    (default_reward : float) (h : store) (m1 m2 : GridWorldMDP) (h' : store)
    (s a : Z) :
  valid_instance h m1 ->
  GridWorldMDP_init nr nc reward_dict goal_state default_reward h = (Ok m2, h') ->
  rewards m2 <> rewards m1
  /\ state_rewards m2 <> rewards m1
  /\ rewards m2 <> state_rewards m2
  /\ h' !! rewards m1 = h !! rewards m1
  /\ rewardTable h' m1 s a = rewardTable h m1 s a
  /\ valid_instance h' m1
  /\ valid_instance h' m2.
Proof.
  intros Hv Hinit.
  pose proof (GridWorldMDP_init_valid _ _ _ _ _ _ _ _ Hinit) as Hv2.
  destruct (GridWorldMDP_init_inversion _ _ _ _ _ _ _ _ Hinit)
    as (_ & _ & -> & _ & _ & _ & Hold).
  destruct Hv as (Hr & Hc & HS & HA & arr & Hl & Htbl).
  pose proof (lookup_lt_Some _ _ _ Hl) as Hlt.
  cbn [rewards state_rewards constructed].
  split; [lia|]. split; [lia|]. split; [lia|].
  split; [apply Hold; exact Hlt|].
  split.
  { unfold rewardTable, np_getitem2. rewrite (Hold _ Hlt), Hl. reflexivity. }
  split; [|exact Hv2].
  split; [exact Hr|]. split; [exact Hc|]. split; [exact HS|].
  split; [exact HA|].
  exists arr. split; [rewrite (Hold _ Hlt); exact Hl|exact Htbl].
Qed.

Lemma construction_leaves_instances_alone_witness :
  rewards (constructed 1 1 2) <> rewards grid22
  /\ state_rewards (constructed 1 1 2) <> rewards grid22
  /\ rewards (constructed 1 1 2) <> state_rewards (constructed 1 1 2)
  /\ snd (GridWorldMDP_init 1 1 ∅ None zero store22) !! rewards grid22
     = store22 !! rewards grid22
  /\ rewardTable (snd (GridWorldMDP_init 1 1 ∅ None zero store22)) grid22 3 8
     = rewardTable store22 grid22 3 8
  /\ valid_instance (snd (GridWorldMDP_init 1 1 ∅ None zero store22)) grid22
  /\ valid_instance (snd (GridWorldMDP_init 1 1 ∅ None zero store22))
       (constructed 1 1 2).
Proof.
  apply (construction_leaves_instances_alone 1 1 ∅ None zero store22 grid22
           (constructed 1 1 2)
           (snd (GridWorldMDP_init 1 1 ∅ None zero store22)) 3 8).
  - exact valid_grid22.
  - vm_compute. reflexivity.
Defined.

(** X10. The copy of a valid instance does not carry the source's
    [state_rewards]: every entry of the copy's [state_rewards] is 0,
    whatever overrides the source was built with. The arrays the store held
    before the call are untouched. *)
Theorem copy_resets_state_rewards (h : store) (m cp : GridWorldMDP)
    (h' : store) (s : Z) (l : loc) :
  valid_instance h m ->
  copy m h = (Ok cp, h') ->
  0 <= s < rows m * cols m ->
  (l < length h)%nat ->
  stateRewards h' cp s = Ok zero
  /\ h' !! l = h !! l.
Proof.
  intros (Hnr & Hnc & HS & HA & arr & Hl & Htbl) Hcopy Hs Hlt.
  destruct (GridWorldMDP_init_succeeds (rows m) (cols m) ∅ None zero h
              Hnr Hnc) as [h1 Hinit].
  { intros r c v Hv. rewrite lookup_empty in Hv. discriminate Hv. }
  { reflexivity. }
  pose proof (stateRewards_constructed _ _ _ _ _ _ _ _ s Hinit Hs) as Hsr.
  destruct (GridWorldMDP_init_inversion _ _ _ _ _ _ _ _ Hinit)
    as (_ & _ & _ & _ & _ & Hlen1 & Hold).
  assert (Hl1 : h1 !! rewards m = Some arr).
  { rewrite Hold; [exact Hl|]. eapply lookup_lt_Some, Hl. }
  unfold copy in Hcopy. rewrite (bindM_Ok _ _ _ _ _ Hinit) in Hcopy.
  rewrite (bindM_Ok _ _ h1 (length h1) (h1 ++ [arr])) in Hcopy
    by (unfold np_copy, bindM, load; rewrite Hl1; reflexivity).
  unfold ret in Hcopy. injection Hcopy as <- <-.
  split.
  - unfold stateRewards, np_getitem1 in *.
    cbn [state_rewards constructed] in *.
    rewrite lookup_app_l by lia.
    destruct (h1 !! S (length h)); exact Hsr.
  - rewrite lookup_app_l by lia. apply Hold. exact Hlt.
Qed.

Lemma copy_resets_state_rewards_witness :
  stateRewards (snd (copy grid22 store22))
    {| rows := 2; cols := 2; num_S := 4; num_A := 9;
       rewards := 4%nat; state_rewards := 3%nat |} 3 = Ok zero
  /\ snd (copy grid22 store22) !! 1%nat = store22 !! 1%nat.
Proof.
  apply (copy_resets_state_rewards store22 grid22 _ _ 3 1%nat).
  - exact valid_grid22.
  - vm_compute. reflexivity.
  - simpl. lia.
  - vm_compute. lia.
Defined.

(** ** Histories of reconfigurations *)

Lemma run_op_valid (h : store) m op :
  valid_instance h m -> valid_instance (snd (run_op m op h)) m.
Proof.
  destruct op as [g|]; simpl;
    [apply set_goal_valid | apply set_all_goals_valid].
Qed.

Lemma run_op_other_columns self op (h : store) s a :
  0 <= a < 9 -> a <> value ABSORB ->
  rewardTable (snd (run_op self op h)) self s a = rewardTable h self s a.
Proof.
  destruct op as [g|]; simpl;
    [apply set_goal_other_columns | apply set_all_goals_other_columns].
Qed.

(** X11. Through any sequence of [set_goal] and [set_all_goals] calls,
    failing ones included, a valid instance stays valid (its table keeps the
    shape [(rows*cols, 9)]) and every entry outside the ABSORB column keeps
    the value it had before the first call. *)
Theorem reconfigurations_keep_the_moves (h : store) (m : GridWorldMDP)
    (ops : list goal_op) (s a : Z) :
  valid_instance h m ->
  0 <= a < 9 -> a <> value ABSORB ->
  valid_instance (after_ops m ops h) m
  /\ rewardTable (after_ops m ops h) m s a = rewardTable h m s a.
Proof.
  intros Hv Ha Hne. revert h Hv. unfold after_ops.
  induction ops as [|op ops IH]; intros h Hv; [split; [exact Hv|reflexivity]|].
  simpl. destruct (IH (snd (run_op m op h)) (run_op_valid h m op Hv))
    as [Hv' Hread].
  split; [exact Hv'|].
  rewrite Hread. apply run_op_other_columns; assumption.
Qed.

Lemma reconfigurations_keep_the_moves_witness :
  valid_instance
    (after_ops grid22 [SetGoal (Some 9); SetAllGoals; SetGoal (Some 0)] store22)
    grid22
  /\ rewardTable
       (after_ops grid22 [SetGoal (Some 9); SetAllGoals; SetGoal (Some 0)]
          store22) grid22 0 (value DOWN_RIGHT)
     = rewardTable store22 grid22 0 (value DOWN_RIGHT).
Proof.
  apply (reconfigurations_keep_the_moves store22 grid22
           [SetGoal (Some 9); SetAllGoals; SetGoal (Some 0)] 0
           (value DOWN_RIGHT)).
  - exact valid_grid22.
  - simpl. lia.
  - discriminate.
Defined.

(** ** More on the transition function *)

(** X12. [_transition] raises [AssertionError] for every state at or
    above [rows*cols] and for every action index outside [[0, 9)], on any
    instance and with or without the illegality flag. *)
Theorem transition_rejects_bad_arguments (self : GridWorldMDP) (s a : Z) (alert : bool) :
  rows self * cols self <= s \/ a < 0 \/ 9 <= a ->
  _transition self s a alert = Raise AssertionError.
Proof.
  intros Hbad. unfold _transition, state_to_coor.
  destruct (s <? rows self * cols self) eqn:Es; cbn [assert_ bindR];
    [|reflexivity].
  apply Z.ltb_lt in Es.
  rewrite assert_false; [reflexivity|].
  apply andb_false_iff. rewrite Z.geb_leb, Z.leb_gt, Z.ltb_ge.
  change len_Actions with 9. lia.
Qed.

Lemma transition_rejects_bad_arguments_witness :
  _transition grid22 0 9 true = Raise AssertionError.
Proof.
  apply (transition_rejects_bad_arguments grid22 0 9 true). right. right. lia.
Defined.

Lemma _transition_Raise (self : GridWorldMDP) (s a : Z) (alert : bool)
    (e : exn) :
  _transition self s a alert = Raise e -> e = AssertionError.
Proof.
  unfold _transition, state_to_coor.
  destruct (s <? rows self * cols self); cbn [assert_ bindR];
    [|intros [= <-]; reflexivity].
  destruct ((a >=? 0) && (a <? len_Actions)) eqn:Ea; cbn [assert_ bindR];
    [|intros [= <-]; reflexivity].
  apply andb_true_iff in Ea as [Ha0%Z.geb_le Ha9%Z.ltb_lt].
  destruct (value_surj a (conj Ha0 Ha9)) as [act ->].
  assert (Hcoor : forall r c (out : Z -> transition_ret),
    (let* s_prime := coor_to_state self r c in Ok (out s_prime)) = Raise e ->
    e = AssertionError).
  { intros r c out. unfold coor_to_state.
    destruct ((0 <=? r) && (r <? rows self)); cbn [assert_ bindR];
      [|intros [= <-]; reflexivity].
    destruct ((0 <=? c) && (c <? cols self)); cbn [assert_ bindR];
      [discriminate|intros [= <-]; reflexivity]. }
  destruct act; cbn [value Z.eqb Pos.eqb bindR];
    match goal with
    | |- context [if ?b then (_, _, true) else _] => destruct b
    end;
    apply (Hcoor _ _ (fun s_prime =>
             if alert then WithFlag s_prime _ else StateOnly s_prime)).
Qed.

(** X13. Whatever its arguments, [_transition] returns a state or raises
    [AssertionError]: the final [raise BaseException] branch is never
    taken. *)
Theorem transition_raises_only_AssertionError
    (self : GridWorldMDP) (s a : Z) (alert : bool) :
  match _transition self s a alert with
  | Ok _ => True
  | Raise e => e = AssertionError
  end.
Proof.
  destruct (_transition self s a alert) as [out|e] eqn:E; [exact I|].
  eapply _transition_Raise, E.
Qed.

(** X14. A negative state passes the check of [state_to_coor], so
    [_transition] runs on it: when the shifted coordinate lies inside the
    grid it returns that cell, flagged legal; otherwise the move reverts to
    the negative row and [coor_to_state] raises [AssertionError]. *)
Theorem transition_from_negative_state (self : GridWorldMDP) (s : Z)
    (act : Actions) (alert : bool) :
  0 < rows self -> 0 < cols self -> s < 0 ->
  _transition self s (value act) alert =
    let '(r, c) := shifted (cols self) s act in
    if in_grid (rows self) (cols self) r c
    then Ok (if alert then WithFlag (r * cols self + c) false
             else StateOnly (r * cols self + c))
    else Raise AssertionError.
Proof.
  intros Hrows Hcols Hs.
  unfold _transition, shifted.
  rewrite state_to_coor_below by nia. cbn [bindR].
  rewrite assert_true.
  2:{ pose proof (value_range act).
      apply andb_true_iff; split; [apply Z.geb_le | apply Z.ltb_lt]; lia. }
  cbn [bindR].
  assert (Hr : s / cols self < 0) by (apply Z.div_lt_upper_bound; lia).
  set (r := s / cols self) in *. set (c := s mod cols self) in *.
  assert (Hstay : coor_to_state self r c = Raise AssertionError)
    by (apply coor_to_state_out_of_range; lia).
  destruct act; cbn [value delta fst snd Z.eqb Pos.eqb bindR];
    rewrite out_of_bounds_test, ?Z.add_0_r; unfold Z.sub;
    change (- (1)) with (-1);
    match goal with
    | |- context [in_grid ?n ?m ?r' ?c'] =>
        destruct (in_grid n m r' c') eqn:E; cbn [negb]
    end;
    try (rewrite Hstay; reflexivity);
    apply in_grid_true in E as [? ?];
    rewrite coor_to_state_valid by assumption; reflexivity.
Qed.

Lemma transition_from_negative_state_witness :
  _transition grid22 (-1) (value DOWN) true =
    let '(r, c) := shifted (cols grid22) (-1) DOWN in
    if in_grid (rows grid22) (cols grid22) r c
    then Ok (if true then WithFlag (r * cols grid22 + c) false
             else StateOnly (r * cols grid22 + c))
    else Raise AssertionError.
Proof.
  apply (transition_from_negative_state grid22 (-1) DOWN true); simpl; lia.
Defined.

Lemma delta_inj act1 act2 : delta act1 = delta act2 -> act1 = act2.
Proof. destruct act1, act2; simpl; intros H; try reflexivity; discriminate H. Qed.

Lemma legal_landing rows cols s act s_prime :
  landing rows cols s act = (s_prime, false) ->
  exists r c, shifted cols s act = (r, c)
    /\ 0 <= r < rows /\ 0 <= c < cols /\ s_prime = r * cols + c.
Proof.
  unfold landing. destruct (shifted cols s act) as [r c].
  destruct (in_grid rows cols r c) eqn:E; [|discriminate].
  intros [= <-]. apply in_grid_true in E as [Hr Hc].
  exists r, c. repeat split; (reflexivity || lia).
Qed.

Lemma _transition_legal_landing self s act s_prime :
  0 < rows self -> 0 < cols self -> 0 <= s < rows self * cols self ->
  _transition self s (value act) true = Ok (WithFlag s_prime false) ->
  landing (rows self) (cols self) s act = (s_prime, false).
Proof.
  intros Hrows Hcols Hs Hmove.
  rewrite _transition_landing in Hmove by assumption.
  destruct (landing (rows self) (cols self) s act) as [s1 ill].
  injection Hmove as -> ->. reflexivity.
Qed.

(** X15. From a state of the grid, two different actions that are both
    legal land on two different states; in particular a legal move other
    than ABSORB leaves the state. *)
Theorem legal_moves_are_distinct (self : GridWorldMDP) (s : Z)
    (act1 act2 : Actions) (s1 s2 : Z) :
  0 < rows self -> 0 < cols self ->
  0 <= s < rows self * cols self ->
  _transition self s (value act1) true = Ok (WithFlag s1 false) ->
  _transition self s (value act2) true = Ok (WithFlag s2 false) ->
  act1 <> act2 ->
  s1 <> s2.
Proof.
  intros Hrows Hcols Hs H1 H2 Hne Heq. apply Hne.
  apply _transition_legal_landing in H1; try assumption.
  apply _transition_legal_landing in H2; try assumption.
  apply legal_landing in H1 as (r1 & c1 & E1 & Hr1 & Hc1 & ->).
  apply legal_landing in H2 as (r2 & c2 & E2 & Hr2 & Hc2 & E).
  rewrite E in Heq. clear E.
  assert (r1 = r2 /\ c1 = c2) as [-> ->].
  { apply (flat_index_inj (cols self)); lia. }
  unfold shifted in E1, E2. rewrite <- E2 in E1.
  injection E1 as Er Ec.
  apply delta_inj. destruct (delta act1), (delta act2). simpl in *.
  f_equal; lia.
Qed.

Lemma legal_moves_are_distinct_witness :
  (_transition grid22 0 (value RIGHT) true = Ok (WithFlag 1 false)
   /\ _transition grid22 0 (value DOWN_RIGHT) true = Ok (WithFlag 3 false))
  /\ 1 <> 3.
Proof.
  split; [split; reflexivity|].
  apply (legal_moves_are_distinct grid22 0 RIGHT DOWN_RIGHT 1 3);
    try (simpl; lia); try reflexivity.
  discriminate.
Defined.

Lemma delta_opposite act :
  delta (opposite act) = (- fst (delta act), - snd (delta act)).
Proof. destruct act; reflexivity. Qed.

(** X16. A legal move is undone by the opposite action: if action [act]
    takes a state of the grid to [s_prime] legally, the action with the
    negated delta takes [s_prime] back to the state, legally. *)
Theorem opposite_move_returns (self : GridWorldMDP) (s : Z) (act : Actions)
    (s_prime : Z) :
  0 < rows self -> 0 < cols self ->
  0 <= s < rows self * cols self ->
  _transition self s (value act) true = Ok (WithFlag s_prime false) ->
  _transition self s_prime (value (opposite act)) true
  = Ok (WithFlag s false).
Proof.
  intros Hrows Hcols Hs Hmove.
  apply _transition_legal_landing in Hmove; try assumption.
  apply legal_landing in Hmove as (r & c & E & Hr & Hc & ->).
  rewrite _transition_landing
    by (try assumption; apply state_bounds; assumption).
  unfold landing, shifted in *. rewrite delta_opposite. cbn [fst snd].
  destruct (decode_encode self Hrows Hcols r c Hc) as [-> ->].
  injection E as <- <-.
  destruct (coor_bounds self Hrows Hcols s Hs) as [Hr0 Hc0].
  replace (s / cols self + fst (delta act) + - fst (delta act))
    with (s / cols self) by lia.
  replace (s mod cols self + snd (delta act) + - snd (delta act))
    with (s mod cols self) by lia.
  replace (in_grid (rows self) (cols self) (s / cols self) (s mod cols self))
    with true by (symmetry; apply in_grid_true; split; assumption).
  rewrite encode_decode by assumption. reflexivity.
Qed.

Lemma opposite_move_returns_witness :
  _transition grid22 0 (value DOWN_RIGHT) true = Ok (WithFlag 3 false)
  /\ _transition grid22 3 (value (opposite DOWN_RIGHT)) true
     = Ok (WithFlag 0 false).
Proof.
  split; [reflexivity|].
  apply (opposite_move_returns grid22 0 DOWN_RIGHT 3);
    try (simpl; lia). reflexivity.
Defined.
